(** * Landscape generator: a shallow embedding of [tools/generate_data_static.py]

    The script turns a flat list of project records into a two-level
    landscape document (category / subcategory / items), either following
    a static plan or by grouping on each project's [category] field.

    The embedding keeps the shape of the Python code:
    - JSON / YAML data are values of the type [value];
    - Python exceptions are the [Raise] results of an error monad;
    - the network and the logo directory are an explicit [world] that is
      threaded through every call that touches them;
    - [for] loops are [for_each] with the loop-carried variables as an
      accumulator.

    Python strings are modelled by [string]; a character stands for a code
    point below 256.  JSON numbers are modelled by integers. *)

From Stdlib Require Import ZArith List String Ascii Bool Lia Permutation.
Import ListNotations.
Local Open Scope string_scope.
Local Open Scope list_scope.
Set Warnings "-register-all".


(** ** Values *)

Inductive value : Type :=
| VNone
| VBool (b : bool)
| VInt (n : Z)
| VStr (s : string)
| VList (l : list value)
| VDict (d : list (string * value)).

(** The exceptions the script can meet. *)
Inductive exn : Type :=
| AttributeError
| TypeError
| KeyError
| IndexError
| OSError
| HTTPError
| ConnectionError.

Inductive result (A : Type) : Type :=
| Ok (a : A)
| Raise (e : exn).

Arguments Ok {A} a.
Arguments Raise {A} e.

Definition rbind {A B : Type} (r : result A) (k : A -> result B) : result B :=
  match r with
  | Ok a => k a
  | Raise e => Raise e
  end.

Notation "x <-- r ;; k" := (rbind r (fun x => k))
  (at level 61, r at next level, right associativity).

(** Python truth value of an object ([if x:]). *)
Definition truthy (v : value) : bool :=
  match v with
  | VNone => false
  | VBool b => b
  | VInt n => negb (n =? 0)%Z
  | VStr s => negb (s =? EmptyString)%string
  | VList l => match l with [] => false | _ :: _ => true end
  | VDict d => match d with [] => false | _ :: _ => true end
  end.

(** A dict with string keys, in insertion order. *)
Fixpoint assoc (k : string) (d : list (string * value)) : option value :=
  match d with
  | [] => None
  | (k', v) :: rest => if (k' =? k)%string then Some v else assoc k rest
  end.

(** [d[k] = v]: an existing key keeps its place, a new one goes last. *)
Fixpoint dict_set (d : list (string * value)) (k : string) (v : value)
  : list (string * value) :=
  match d with
  | [] => [(k, v)]
  | (k', v') :: rest =>
      if (k' =? k)%string then (k', v) :: rest else (k', v') :: dict_set rest k v
  end.

(** [obj.get(k, default)]: only dicts have a [get] method. *)
Definition py_get (obj : value) (k : string) (default : value) : result value :=
  match obj with
  | VDict d => Ok (match assoc k d with Some v => v | None => default end)
  | _ => Raise AttributeError
  end.

(** The characters of a string, as one-character strings. *)
Fixpoint chars (s : string) : list value :=
  match s with
  | EmptyString => []
  | String c rest => VStr (String c EmptyString) :: chars rest
  end.

(** [for x in obj]: lists, strings and dicts (their keys) can be iterated. *)
Definition py_iter (obj : value) : result (list value) :=
  match obj with
  | VList l => Ok l
  | VStr s => Ok (chars s)
  | VDict d => Ok (map (fun kv => VStr (fst kv)) d)
  | _ => Raise TypeError
  end.

(** [obj[0]]. *)
Definition py_index0 (obj : value) : result value :=
  match obj with
  | VList (x :: _) => Ok x
  | VList [] => Raise IndexError
  | VStr (String c _) => Ok (VStr (String c EmptyString))
  | VStr EmptyString => Raise IndexError
  | VDict _ => Raise KeyError
  | _ => Raise TypeError
  end.

(** ** Strings *)

(** [str.isspace] on one character. *)
Definition is_space (c : ascii) : bool :=
  let n := nat_of_ascii c in
  (((9 <=? n) && (n <=? 13)) || ((28 <=? n) && (n <=? 32))
   || (n =? 133) || (n =? 160))%nat.

Fixpoint lstrip (s : string) : string :=
  match s with
  | EmptyString => EmptyString
  | String c rest => if is_space c then lstrip rest else s
  end.

Fixpoint rstrip (s : string) : string :=
  match s with
  | EmptyString => EmptyString
  | String c rest =>
      match rstrip rest with
      | EmptyString => if is_space c then EmptyString else String c EmptyString
      | r => String c r
      end
  end.

(** [s.strip()]. *)
Definition strip (s : string) : string := rstrip (lstrip s).

(** [s.split(sep)] for a one-character separator. *)
Fixpoint split_on (sep : ascii) (s : string) : list string :=
  match s with
  | EmptyString => [EmptyString]
  | String c rest =>
      if Ascii.eqb c sep then EmptyString :: split_on sep rest
      else match split_on sep rest with
           | [] => [String c EmptyString]
           | w :: ws => String c w :: ws
           end
  end.

(** [s.split(sep, maxsplit=1)] for a one-character separator. *)
Fixpoint split1 (sep : ascii) (s : string) : list string :=
  match s with
  | EmptyString => [EmptyString]
  | String c rest =>
      if Ascii.eqb c sep then [EmptyString; rest]
      else match split1 sep rest with
           | [] => [String c EmptyString]
           | w :: ws => String c w :: ws
           end
  end.

(** ** The world: network and logo directory *)

Record response : Type := mkResponse {
  status_code : Z;
  content : list Byte.byte
}.

Record world : Type := mkWorld {
  (** does [mkdir(parents=True, exist_ok=True)] succeed on this path *)
  mkdir_ok : string -> bool;
  (** outcomes of the HTTP requests still to come, each a function of the
      requested URL; [None] is a transport failure or a timeout *)
  pending : list (string -> option response);
  (** can this path be opened for writing *)
  writable : string -> bool;
  (** the files written so far, latest first *)
  files : list (string * list Byte.byte)
}.

(** ** The monad of the script: state and exceptions *)

Definition M (A : Type) : Type := world -> result A * world.

Definition ret {A} (a : A) : M A := fun w => (Ok a, w).

Definition bind {A B} (m : M A) (k : A -> M B) : M B :=
  fun w => match m w with
           | (Ok a, w') => k a w'
           | (Raise e, w') => (Raise e, w')
           end.

Definition lift {A} (r : result A) : M A := fun w => (r, w).

Notation "x <- m ;; k" := (bind m (fun x => k))
  (at level 61, m at next level, right associativity).
Notation "' pat <- m ;; k" := (bind m (fun x => match x with pat => k end))
  (at level 61, pat pattern, m at next level, right associativity).

(** [for x in xs: acc = body x acc]. *)
Fixpoint for_each {X S : Type} (body : X -> S -> M S) (xs : list X) (acc : S)
  : M S :=
  match xs with
  | [] => ret acc
  | x :: rest => acc' <- body x acc ;; for_each body rest acc'
  end.

(** [requests.get(url, timeout=10)]. *)
Definition requests_get (url : string) : M response :=
  fun w =>
    match pending w with
    | [] => (Raise ConnectionError, w)
    | outcome :: rest =>
        let w' := mkWorld (mkdir_ok w) rest (writable w) (files w) in
        match outcome url with
        | None => (Raise ConnectionError, w')
        | Some r => (Ok r, w')
        end
    end.

(** [response.raise_for_status()]. *)
Definition raise_for_status (r : response) : result unit :=
  if ((400 <=? status_code r) && (status_code r <? 600))%Z
  then Raise HTTPError else Ok tt.

(** [dest / file_name]. *)
Definition path_join (dest file_name : string) : string :=
  (dest ++ "/" ++ file_name)%string.

(** [with file_path.open("wb") as f: f.write(data)]. *)
Definition write_file (file_path : string) (data : list Byte.byte) : M unit :=
  fun w =>
    if writable w file_path
    then (Ok tt, mkWorld (mkdir_ok w) (pending w) (writable w)
                         ((file_path, data) :: files w))
    else (Raise OSError, w).

(** [logo_dir.mkdir(parents=True, exist_ok=True)]. *)
Definition mkdir (dir : string) : M unit :=
  fun w => if mkdir_ok w dir then (Ok tt, w) else (Raise OSError, w).

(** ** [download_logo] *)

Definition placeholder : string := "placeholder.svg".

(** [url.split("/")[-1].split("?")[0]]. *)
Definition file_name_of (url : string) : string :=
  hd EmptyString (split_on "?" (last (split_on "/" url) EmptyString)).

(** The body of the [try] block. *)
Definition download_logo_try (url : value) (dest : string) : M string :=
  match url with
  | VStr u =>
      let file_name := file_name_of u in
      response <- requests_get u ;;
      _ <- lift (raise_for_status response) ;;
      let file_path := path_join dest file_name in
      _ <- write_file file_path (content response) ;;
      ret file_name
  | _ => lift (Raise AttributeError)
  end.

(** [try: ... except Exception: return "placeholder.svg"]. *)
Definition download_logo (url : value) (dest : string) : M string :=
  fun w =>
    match download_logo_try url dest w with
    | (Ok file_name, w') => (Ok file_name, w')
    | (Raise _, w') => (Ok placeholder, w')
    end.

(** ** [build_item] *)

Definition item : Type := list (string * value).

(** The logo part of [build_item]. *)
Definition resolve_logo (logo_dir : option string) (logo_url : value)
  : M value :=
  match logo_dir with
  | Some dir =>
      if truthy logo_url
      then file_name <- download_logo logo_url dir ;; ret (VStr file_name)
      else ret (VStr placeholder)
  | None =>
      if truthy logo_url then ret logo_url else ret (VStr placeholder)
  end.

(** The statements of [build_item] before the logo: the three fields that
    are always written, then [project] and [repo_url]. *)
Definition item_fields (project : value) : result item :=
  name <-- py_get project "name" VNone ;;
  summary <-- py_get project "summary" VNone ;;
  url <-- py_get project "url" VNone ;;
  let item0 : item :=
    [("name", name); ("description", summary); ("homepage_url", url)] in
  state <-- py_get project "state" VNone ;;
  let item1 := if truthy state then dict_set item0 "project" state else item0 in
  github_repos <-- py_get project "github_repos" VNone ;;
  let repos := if truthy github_repos then github_repos else VList [] in
  if truthy repos
  then
    first <-- py_index0 repos ;;
    repo_url <-- py_get first "url" VNone ;;
    Ok (if truthy repo_url then dict_set item1 "repo_url" repo_url else item1)
  else Ok item1.

(** The item record of a project.  The dynamic builder repeats the same
    statements inline. *)
Definition build_item (logo_dir : option string) (project : value) : M item :=
  fields <- lift (item_fields project) ;;
  logo_url <- lift (py_get project "logo" VNone) ;;
  logo <- resolve_logo logo_dir logo_url ;;
  ret (dict_set fields "logo" logo).

(** ** Dicts keyed by arbitrary hashable objects *)

(** Lists and dicts cannot be dict keys or set members. *)
Definition hashable (v : value) : bool :=
  match v with
  | VList _ | VDict _ => false
  | _ => true
  end.

Definition key_num (v : value) : option Z :=
  match v with
  | VBool b => Some (if b then 1 else 0)%Z
  | VInt n => Some n
  | _ => None
  end.

(** Equality of keys: [True == 1] and [False == 0] in Python. *)
Definition key_eqb (a b : value) : bool :=
  match a, b with
  | VNone, VNone => true
  | VStr s, VStr t => (s =? t)%string
  | _, _ =>
      match key_num a, key_num b with
      | Some x, Some y => (x =? y)%Z
      | _, _ => false
      end
  end.

Definition table : Type := list (value * value).

Fixpoint kfind (k : value) (d : table) : option value :=
  match d with
  | [] => None
  | (k', v) :: rest => if key_eqb k' k then Some v else kfind k rest
  end.

(** Binding a key that is already there keeps the old key object and its
    position and replaces the value. *)
Fixpoint kinsert (k v : value) (d : table) : table :=
  match d with
  | [] => [(k, v)]
  | (k', v') :: rest =>
      if key_eqb k' k then (k', v) :: rest else (k', v') :: kinsert k v rest
  end.

(** [d.get(k)]. *)
Definition table_get (d : table) (k : value) : result value :=
  if hashable k
  then Ok (match kfind k d with Some v => v | None => VNone end)
  else Raise TypeError.

(** [k in s] and [s.add(k)] for a set of hashable objects. *)
Definition kmem (k : value) (s : list value) : bool := existsb (key_eqb k) s.

Definition kadd (k : value) (s : list value) : list value :=
  if kmem k s then s else s ++ [k].

(** ** The landscape document *)

Record subcategory : Type := mkSub {
  sub_name : value;
  sub_items : list item
}.

Record category : Type := mkCat {
  cat_name : value;
  cat_subs : list subcategory
}.

(** ** [build_landscape_from_static] *)

(** [{p.get("name"): p for p in projects}], one project at a time. *)
Definition index_step (p : value) (d : table) : M table :=
  name <- lift (py_get p "name" VNone) ;;
  if hashable name then ret (kinsert name p d) else lift (Raise TypeError).

Section Static.

Variable logo_dir : option string.
Variable projects_by_name : table.

(** Body of [for proj_name in sub.get("items", [])]; the accumulator is
    [new_sub["items"]] and [assigned]. *)
Definition item_step (proj_name : value) (acc : list item * list value)
  : M (list item * list value) :=
  let '(items, assigned) := acc in
  proj_data <- lift (table_get projects_by_name proj_name) ;;
  if truthy proj_data
  then
    it <- build_item logo_dir proj_data ;;
    ret (items ++ [it], kadd proj_name assigned)
  else ret (items, assigned).

(** Body of [for sub in cat.get("subcategories", [])]. *)
Definition sub_step (sub : value) (acc : list subcategory * list value)
  : M (list subcategory * list value) :=
  let '(subs, assigned) := acc in
  name <- lift (py_get sub "name" (VStr EmptyString)) ;;
  refs <- lift (py_get sub "items" (VList [])) ;;
  names <- lift (py_iter refs) ;;
  '(items, assigned') <- for_each item_step names ([], assigned) ;;
  ret (subs ++ [mkSub name items], assigned').

(** Body of [for cat in static_categories]. *)
Definition cat_step (cat : value) (acc : list category * list value)
  : M (list category * list value) :=
  let '(cats, assigned) := acc in
  name <- lift (py_get cat "name" (VStr EmptyString)) ;;
  subs_obj <- lift (py_get cat "subcategories" (VList [])) ;;
  subs <- lift (py_iter subs_obj) ;;
  '(new_subs, assigned') <- for_each sub_step subs ([], assigned) ;;
  ret (cats ++ [mkCat name new_subs], assigned').

(** Body of [for proj_name, proj_data in projects_by_name.items()]. *)
Definition unassigned_step (assigned : list value) (entry : value * value)
  (unassigned_items : list item) : M (list item) :=
  let '(proj_name, proj_data) := entry in
  if kmem proj_name assigned
  then ret unassigned_items
  else
    it <- build_item logo_dir proj_data ;;
    ret (unassigned_items ++ [it]).

End Static.

Definition ensure_dir (logo_dir : option string) : M unit :=
  match logo_dir with
  | Some dir => mkdir dir
  | None => ret tt
  end.

Definition unmapped (unassigned_items : list item) : category :=
  mkCat (VStr "Unmapped") [mkSub (VStr "Misc") unassigned_items].

(** The value under the [categories] key of the returned dict. *)
Definition build_landscape_from_static (projects static_categories : list value)
  (logo_dir : option string) : M (list category) :=
  projects_by_name <- for_each index_step projects [] ;;
  _ <- ensure_dir logo_dir ;;
  '(output_categories, assigned) <-
    for_each (cat_step logo_dir projects_by_name) static_categories ([], []) ;;
  unassigned_items <-
    for_each (unassigned_step logo_dir assigned) projects_by_name [] ;;
  ret (match unassigned_items with
       | [] => output_categories
       | _ :: _ => output_categories ++ [unmapped unassigned_items]
       end).

(** ** [build_landscape_from_dynamic] *)

(** During the loop the subcategories of a category are a dict keyed by
    their name. *)
Record open_category : Type := mkOpen {
  open_name : string;
  open_subs : list (string * subcategory)
}.

Fixpoint sfind {A : Type} (k : string) (d : list (string * A)) : option A :=
  match d with
  | [] => None
  | (k', a) :: rest => if (k' =? k)%string then Some a else sfind k rest
  end.

(** [d.setdefault(k, default)], as the dict it leaves behind. *)
Definition setdefault {A : Type} (d : list (string * A)) (k : string)
  (default : A) : list (string * A) :=
  match sfind k d with
  | Some _ => d
  | None => d ++ [(k, default)]
  end.

(** In-place change of the object bound to [k]. *)
Fixpoint supdate {A : Type} (k : string) (f : A -> A) (d : list (string * A))
  : list (string * A) :=
  match d with
  | [] => []
  | (k', a) :: rest =>
      if (k' =? k)%string then (k', f a) :: rest
      else (k', a) :: supdate k f rest
  end.

(** Category and subcategory names of a [category] string. *)
Definition labels (cat_str : string) : string * string :=
  let parts := map strip (split1 "/" cat_str) in
  match parts with
  | [cat; subcat] => (cat, subcat)
  | _ => (hd EmptyString parts, "Misc")
  end.

(** [cat_str.split(...)] needs a string. *)
Definition labels_of (cat_obj : value) : result (string * string) :=
  match cat_obj with
  | VStr cat_str => Ok (labels cat_str)
  | _ => Raise AttributeError
  end.

Definition open_sub (subcat_name : string) (c : open_category)
  : open_category :=
  mkOpen (open_name c)
         (setdefault (open_subs c) subcat_name
                     (mkSub (VStr subcat_name) [])).

Definition append_item (subcat_name : string) (it : item) (c : open_category)
  : open_category :=
  mkOpen (open_name c)
         (supdate subcat_name
                  (fun s => mkSub (sub_name s) (sub_items s ++ [it]))
                  (open_subs c)).

(** Body of [for proj in projects]. *)
Definition dynamic_step (logo_dir : option string) (proj : value)
  (categories : list (string * open_category))
  : M (list (string * open_category)) :=
  cat_obj <- lift (py_get proj "category" (VStr "Unknown")) ;;
  '(cat_name, subcat_name) <- lift (labels_of cat_obj) ;;
  let categories1 := setdefault categories cat_name (mkOpen cat_name []) in
  let categories2 := supdate cat_name (open_sub subcat_name) categories1 in
  it <- build_item logo_dir proj ;;
  ret (supdate cat_name (append_item subcat_name it) categories2).

(** The subcategory dict of a category becomes the list of its values. *)
Definition close_category (c : open_category) : category :=
  mkCat (VStr (open_name c)) (map snd (open_subs c)).

Definition build_landscape_from_dynamic (projects : list value)
  (logo_dir : option string) : M (list category) :=
  _ <- ensure_dir logo_dir ;;
  categories <- for_each (dynamic_step logo_dir) projects [] ;;
  ret (map (fun kv => close_category (snd kv)) categories).

(** ** Running examples *)

Definition quiet_world : world :=
  mkWorld (fun _ => true) [] (fun _ => true) [].

Definition proj (fields : list (string * value)) : value := VDict fields.


Definition ex_static_plan : list value :=
  [ VDict [("name", VStr "Core");
           ("subcategories",
            VList [VDict [("name", VStr "Runtime");
                          ("items", VList [VStr "A"])]])] ].

Definition ex_static_projects : list value :=
  [ proj [("name", VStr "A")]; proj [("name", VStr "B")] ].

Definition plain (name : string) : item :=
  [("name", VStr name); ("description", VNone); ("homepage_url", VNone);
   ("logo", VStr placeholder)].

Definition ex_logo_url : string := "https://example.org/img/logo.png?src=cdn/v2".

Definition ex_logo_world : world :=
  mkWorld (fun _ => true) [fun _ => Some (mkResponse 200 [])]
          (fun _ => true) [].

Definition ex_no_homepage : value := proj [("name", VStr "A")].

Definition ex_null_category : list (string * value) :=
  [("name", VStr "N"); ("category", VNone)].

(** ** Vocabulary of the statements *)

(** [it] is an item record that [build_item] can return for project [p]. *)
Definition built_from (logo_dir : option string) (p : value) (it : item)
  : Prop :=
  exists w w', build_item logo_dir p w = (Ok it, w').

(** All the items of a document, in document order. *)
Definition all_items (doc : list category) : list item :=
  flat_map (fun c => flat_map sub_items (cat_subs c)) doc.

(** An optional string as the value [project.get] returns for it. *)
Definition opt_value (o : option string) : value :=
  match o with
  | Some s => VStr s
  | None => VNone
  end.

Definition contains (c : ascii) (s : string) : bool :=
  existsb (Ascii.eqb c) (list_ascii_of_string s).

(** The last path segment of a URL once its query string is removed: what
    the description of the logo resolver asks for. *)
Definition last_segment_without_query (url : string) : string :=
  last (split_on "/" (hd EmptyString (split_on "?" url))) EmptyString.

(** The distinct elements of a list in order of first occurrence. *)
Definition first_seen {A : Type} (eqb : A -> A -> bool) (l : list A) : list A :=
  fold_left (fun acc x => if existsb (eqb x) acc then acc else acc ++ [x]) l [].

(** The name a project is indexed under. *)
Definition name_of (p : value) : value :=
  match py_get p "name" VNone with
  | Ok n => n
  | Raise _ => VNone
  end.

(** The last project of the list that bears the name [n]. *)
Definition last_named (n : value) (projects : list value) : option value :=
  find (fun p => key_eqb (name_of p) n) (rev projects).

Fixpoint distinct_keys (ks : list value) : bool :=
  match ks with
  | [] => true
  | k :: rest => negb (kmem k rest) && distinct_keys rest
  end.

(** [tbl] is the lookup of [projects]: its keys are the names in order of
    first occurrence and each name is bound to the last project bearing it. *)
Definition indexes (tbl : table) (projects : list value) : Prop :=
  map fst tbl = first_seen key_eqb (map name_of projects)
  /\ (forall n, kfind n tbl = last_named n projects)
  /\ distinct_keys (map fst tbl) = true
  /\ Forall (fun k => hashable k = true) (map fst tbl).

(** A plan reference that the lookup answers with a project. *)
Definition found (tbl : table) (n : value) : bool :=
  match table_get tbl n with
  | Ok v => truthy v
  | Raise _ => false
  end.

(** The elements a plan node lists under [k]. *)
Definition listed (obj : value) (k : string) : list value :=
  match py_get obj k (VList []) with
  | Ok v => match py_iter v with Ok l => l | Raise _ => [] end
  | Raise _ => []
  end.

Definition sub_refs (sub : value) : list value := listed sub "items".

Definition sub_defs (cat : value) : list value := listed cat "subcategories".

Definition plan_refs (plan : list value) : list value :=
  flat_map (fun cat => flat_map sub_refs (sub_defs cat)) plan.

(** The references of the plan that get assigned, in plan order. *)
Definition assigned_refs (tbl : table) (plan : list value) : list value :=
  filter (found tbl) (plan_refs plan).

(** The entries of the lookup that the plan leaves over, in table order. *)
Definition leftover (tbl : table) (plan : list value) : table :=
  filter (fun e => negb (kmem (fst e) (assigned_refs tbl plan))) tbl.

(** The item [it] was built for the plan reference [n]: from the project
    that the lookup binds to [n]. *)
Definition from_ref (logo_dir : option string) (tbl : table)
  (n : value) (it : item) : Prop :=
  exists p, kfind n tbl = Some p /\ built_from logo_dir p it.

(** An emitted subcategory follows its definition in the plan. *)
Definition sub_matches (logo_dir : option string) (tbl : table)
  (sub : value) (s : subcategory) : Prop :=
  py_get sub "name" (VStr EmptyString) = Ok (sub_name s)
  /\ Forall2 (from_ref logo_dir tbl)
             (filter (found tbl) (sub_refs sub)) (sub_items s).

(** An emitted category follows its definition in the plan. *)
Definition cat_matches (logo_dir : option string) (tbl : table)
  (cat : value) (c : category) : Prop :=
  py_get cat "name" (VStr EmptyString) = Ok (cat_name c)
  /\ Forall2 (sub_matches logo_dir tbl) (sub_defs cat) (cat_subs c).

(** Inputs on which no statement of the builders raises. *)
Definition wf_project (p : value) : bool :=
  match item_fields p with
  | Ok _ => hashable (name_of p)
  | Raise _ => false
  end.

Definition wf_sub (sub : value) : bool :=
  match sub with
  | VDict _ =>
      match rbind (py_get sub "items" (VList [])) py_iter with
      | Ok refs => forallb hashable refs
      | Raise _ => false
      end
  | _ => false
  end.

Definition wf_cat (cat : value) : bool :=
  match cat with
  | VDict _ =>
      match rbind (py_get cat "subcategories" (VList [])) py_iter with
      | Ok subs => forallb wf_sub subs
      | Raise _ => false
      end
  | _ => false
  end.

(** Every project of the lookup is well formed. *)
Definition all_wf (tbl : table) : Prop :=
  Forall (fun p => wf_project p = true) (map snd tbl).

(** The logo directory, when one is asked for, can be created. *)
Definition dir_ready (logo_dir : option string) (w : world) : bool :=
  match logo_dir with
  | Some dir => mkdir_ok w dir
  | None => true
  end.

Definition ex_twice : list value :=
  [ proj [("name", VStr "A"); ("summary", VStr "old")];
    proj [("name", VStr "B")];
    proj [("name", VStr "A"); ("summary", VStr "new")] ].


Definition ex_sparse_plan : list value :=
  [ VDict [("name", VStr "Core");
           ("subcategories",
            VList [VDict [("name", VStr "Runtime");
                          ("items", VList [VStr "Ghost"; VStr "Phantom"])];
                   VDict [("name", VStr "Tools")]])];
    VDict [("name", VStr "Empty")] ].

Definition ex_sparse_out : list category :=
  [ mkCat (VStr "Core")
          [ mkSub (VStr "Runtime") []; mkSub (VStr "Tools") [] ];
    mkCat (VStr "Empty") [];
    unmapped [plain "A"; plain "B"] ].

(** The labels the dynamic builder derives for a project. *)
Definition project_labels (p : value) : string * string :=
  match rbind (py_get p "category" (VStr "Unknown")) labels_of with
  | Ok l => l
  | Raise _ => (EmptyString, EmptyString)
  end.

Definition cat_label (p : value) : string := fst (project_labels p).

Definition sub_label (p : value) : string := snd (project_labels p).

Definition in_cat (c : string) (p : value) : bool :=
  (cat_label p =? c)%string.

Definition in_sub (c s : string) (p : value) : bool :=
  in_cat c p && (sub_label p =? s)%string.

(** The state of the dynamic loop after the projects [done]. *)
Definition grouped (logo_dir : option string) (done : list value)
  (categories : list (string * open_category)) : Prop :=
  map fst categories = first_seen String.eqb (map cat_label done)
  /\ (forall c, sfind c categories = None -> filter (in_cat c) done = [])
  /\ (forall c oc,
         sfind c categories = Some oc ->
         open_name oc = c
         /\ map fst (open_subs oc)
            = first_seen String.eqb (map sub_label (filter (in_cat c) done))
         /\ (forall s, sfind s (open_subs oc) = None ->
                       filter (in_sub c s) done = [])
         /\ (forall s sub,
                sfind s (open_subs oc) = Some sub ->
                sub_name sub = VStr s
                /\ Forall2 (fun p it => built_from logo_dir p it)
                           (filter (in_sub c s) done) (sub_items sub))).

(** The order of a document of the dynamic builder: categories and
    subcategories by first occurrence of their label, items in load order. *)
Definition dynamic_shape (logo_dir : option string) (projects : list value)
  (doc : list category) : Prop :=
  map cat_name doc
  = map VStr (first_seen String.eqb (map cat_label projects))
  /\ Forall
       (fun c =>
          exists cn,
            cat_name c = VStr cn
            /\ map sub_name (cat_subs c)
               = map VStr (first_seen String.eqb
                             (map sub_label (filter (in_cat cn) projects)))
            /\ Forall
                 (fun s =>
                    exists sn,
                      sub_name s = VStr sn
                      /\ Forall2 (fun p it => built_from logo_dir p it)
                                 (filter (in_sub cn sn) projects)
                                 (sub_items s))
                 (cat_subs c))
       doc.

(** The items held by the state of the dynamic loop. *)
Definition open_items (categories : list (string * open_category))
  : list item :=
  flat_map (fun kv => flat_map (fun ks => sub_items (snd ks))
                               (open_subs (snd kv)))
           categories.

(** Every project has exactly one item in the list, and the list has
    nothing else. *)
Definition one_item_each (logo_dir : option string) (projects : list value)
  (items : list item) : Prop :=
  exists arranged,
    Permutation projects arranged
    /\ Forall2 (fun p it => built_from logo_dir p it) arranged items.

Definition ex_unsorted : list value :=
  [ proj [("name", VStr "P1"); ("category", VStr "Zeta / beta")];
    proj [("name", VStr "P2"); ("category", VStr "Alpha")];
    proj [("name", VStr "P3"); ("category", VStr "Zeta / alpha")];
    proj [("name", VStr "P4"); ("category", VStr "Zeta / beta")] ].

Definition ex_unsorted_out : list category :=
  [ mkCat (VStr "Zeta")
          [ mkSub (VStr "beta") [plain "P1"; plain "P4"];
            mkSub (VStr "alpha") [plain "P3"] ];
    mkCat (VStr "Alpha") [ mkSub (VStr "Misc") [plain "P2"] ] ].



(** ** Vocabulary of the further properties *)

(** What [project.get(k)] returns for the dict [d]. *)
Definition field (d : list (string * value)) (k : string) : value :=
  match assoc k d with
  | Some v => v
  | None => VNone
  end.

(** A computation that neither reads nor changes the world. *)
Definition world_free {A : Type} (m : M A) : Prop :=
  exists r, forall w, m w = (r, w).

(** A project that the dict comprehension of the static builder accepts. *)
Definition indexable (p : value) : bool :=
  match p with
  | VDict _ => hashable (name_of p)
  | _ => false
  end.

(** A project on which the body of the dynamic loop does not raise. *)
Definition wf_dynamic (p : value) : bool :=
  match item_fields p, py_get p "category" (VStr "Unknown") with
  | Ok _, Ok (VStr _) => true
  | _, _ => false
  end.

Definition ex_repos : value :=
  proj [("name", VStr "R"); ("state", VStr "Incubating");
        ("github_repos",
         VList [VDict [("url", VStr "https://github.com/org/first")];
                VDict [("url", VStr "https://github.com/org/second")]])].

Definition ex_repos_item : item :=
  [("name", VStr "R"); ("description", VNone); ("homepage_url", VNone);
   ("project", VStr "Incubating");
   ("repo_url", VStr "https://github.com/org/first");
   ("logo", VStr placeholder)].

Definition ex_plain_logo_url : string := "https://example.org/img/logo.png".

Definition ex_logo_project : value :=
  proj [("name", VStr "L"); ("logo", VStr ex_plain_logo_url)].

Definition ex_logo_bytes : list Byte.byte := [Byte.x89; Byte.x50].

Definition ex_serving_world : world :=
  mkWorld (fun _ => true) [fun _ => Some (mkResponse 200 ex_logo_bytes)]
          (fun _ => true) [].

Definition ex_served_world : world :=
  mkWorld (fun _ => true) [] (fun _ => true)
          [("logos/logo.png", ex_logo_bytes)].

(** The logo of an item is the name of a local file. *)
Definition local_logo (it : item) : Prop :=
  exists s, assoc "logo" it = Some (VStr s)
            /\ contains "/" s = false /\ contains "?" s = false.

Definition ex_logo_doc : list category :=
  [ mkCat (VStr "Unknown")
          [ mkSub (VStr "Misc")
                  [ [("name", VStr "L"); ("description", VNone);
                     ("homepage_url", VNone); ("logo", VStr "logo.png")] ] ] ].

(** The exception that the dict comprehension raises on a project it
    does not accept: no [get] method, or an unhashable name. *)
Definition index_error (p : value) : exn :=
  match p with
  | VDict _ => TypeError
  | _ => AttributeError
  end.

Definition ex_bad_name : value := proj [("name", VList [VStr "A"])].

Definition ex_null_subs_plan : list value :=
  [ VDict [("name", VStr "Core"); ("subcategories", VNone)] ].

Definition ex_closed_world : world :=
  mkWorld (fun _ => false) [fun _ => Some (mkResponse 200 [])]
          (fun _ => true) [].

(** Does the string begin, or end, with a white space character. *)
Definition head_space (s : string) : bool :=
  match s with
  | EmptyString => false
  | String c _ => is_space c
  end.

Fixpoint last_space (s : string) : bool :=
  match s with
  | EmptyString => false
  | String c EmptyString => is_space c
  | String _ rest => last_space rest
  end.

(** No white space at either end. *)
Definition trimmed (s : string) : Prop :=
  head_space s = false /\ last_space s = false.

(** No category and no subcategory of the document is empty, and no name
    is used twice at either level. *)
Definition well_grouped (doc : list category) : Prop :=
  NoDup (map cat_name doc)
  /\ Forall (fun c =>
               cat_subs c <> []
               /\ NoDup (map sub_name (cat_subs c))
               /\ Forall (fun s => sub_items s <> []) (cat_subs c))
            doc.

(** The names of a document are strings without white space at either
    end. *)
Definition trimmed_names (doc : list category) : Prop :=
  Forall (fun c =>
            (exists cn, cat_name c = VStr cn /\ trimmed cn)
            /\ Forall (fun s => exists sn, sub_name s = VStr sn /\ trimmed sn)
                      (cat_subs c))
         doc.

Definition ex_spaced : list value :=
  [ proj [("name", VStr "S1"); ("category", VStr "  Tools /  SDK ")];
    proj [("name", VStr "S2"); ("category", VStr "Tools/SDK")] ].

Definition ex_spaced_out : list category :=
  [ mkCat (VStr "Tools")
          [ mkSub (VStr "SDK") [plain "S1"; plain "S2"] ] ].

(** ** The loaders and [main]

    What lies outside the script is a parameter of the model: the JSON and
    YAML parsers together with the files they read, the test for the plan
    file and the YAML printer.  The command line is taken as parsed; the
    final [print] and a request that never answers are not modelled. *)

Record outside : Type := mkOutside {
  (** [resp.json()] on the body of a response *)
  json_of_body : list Byte.byte -> result value;
  (** [path.open] followed by [json.load] *)
  json_file : string -> result value;
  (** [path.open] followed by [yaml.safe_load] *)
  yaml_file : string -> result value;
  (** [path.exists()] *)
  path_exists : string -> bool;
  (** [yaml.dump] of the dict that holds the categories *)
  yaml_dump : list category -> list Byte.byte
}.

Definition API_URL : string :=
  "https://projects.eclipse.org/api/projects?working_group=sdv&pagesize=90000".

Definition fetch_projects_from_api (env : outside) : M value :=
  resp <- requests_get API_URL ;;
  _ <- lift (raise_for_status resp) ;;
  lift (json_of_body env (content resp)).

Definition load_projects_from_file (env : outside) (path : string) : M value :=
  lift (json_file env path).

Definition load_static_categories (env : outside) (path : string) : M value :=
  data <- lift (yaml_file env path) ;;
  lift (py_get data "categories" (VList [])).

(** [build_landscape_from_static] on whatever the loaders returned: the
    dict comprehension iterates [projects] and the outer loop iterates
    [static_categories], each at its place in the body. *)
Definition static_on (projects static_categories : value)
  (logo_dir : option string) : M (list category) :=
  project_list <- lift (py_iter projects) ;;
  projects_by_name <- for_each index_step project_list [] ;;
  _ <- ensure_dir logo_dir ;;
  plan <- lift (py_iter static_categories) ;;
  '(output_categories, assigned) <-
    for_each (cat_step logo_dir projects_by_name) plan ([], []) ;;
  unassigned_items <-
    for_each (unassigned_step logo_dir assigned) projects_by_name [] ;;
  ret (match unassigned_items with
       | [] => output_categories
       | _ :: _ => output_categories ++ [unmapped unassigned_items]
       end).

(** [build_landscape_from_dynamic] on whatever the loader returned. *)
Definition dynamic_on (projects : value) (logo_dir : option string)
  : M (list category) :=
  _ <- ensure_dir logo_dir ;;
  project_list <- lift (py_iter projects) ;;
  categories <- for_each (dynamic_step logo_dir) project_list [] ;;
  ret (map (fun kv => close_category (snd kv)) categories).

Record arguments : Type := mkArgs {
  arg_input : option string;
  arg_output : string;
  arg_categories : string
}.

(** [if args.input:] *)
Definition input_given (args : arguments) : option string :=
  match arg_input args with
  | Some path => if (path =? EmptyString)%string then None else Some path
  | None => None
  end.

Definition logos : string := "logos".

Definition main (env : outside) (args : arguments) : M unit :=
  projects <- match input_given args with
              | Some path => load_projects_from_file env path
              | None => fetch_projects_from_api env
              end ;;
  let logo_dir := Some logos in
  let categories_path := arg_categories args in
  landscape_data <-
    (if path_exists env categories_path
     then
       static_categories <- load_static_categories env categories_path ;;
       static_on projects static_categories logo_dir
     else dynamic_on projects logo_dir) ;;
  write_file (arg_output args) (yaml_dump env landscape_data).

Definition default_args (input : option string) : arguments :=
  mkArgs input "data.yml" "static_categories.yml".

(** An outside with the project file [projects.json], no plan file and a
    printer that writes nothing. *)
Definition ex_outside (projects : value) (plan : option value) : outside :=
  mkOutside (fun _ => Raise TypeError)
            (fun path => if (path =? "projects.json")%string
                         then Ok projects else Raise OSError)
            (fun path => match plan with
                         | Some doc => Ok doc
                         | None => Raise OSError
                         end)
            (fun path => match plan with Some _ => true | None => false end)
            (fun _ => []).

Definition ex_main_world : world :=
  mkWorld (fun _ => true) [] (fun _ => true)
          [("data.yml", []); ("logos/logo.png", ex_logo_bytes)].




(** ** Vocabulary of the statements on the Unmapped bucket *)

(** The categories [planned] followed, when there is an item left, by
    the category Unmapped with the single subcategory Misc. *)
Definition with_unmapped (planned : list category) (rest : list item)
  : list category :=
  planned ++ match rest with
             | [] => []
             | _ :: _ => [mkCat (VStr "Unmapped") [mkSub (VStr "Misc") rest]]
             end.



(** The lookup of projects whose names are pairwise distinct. *)
Definition by_name (projects : list value) : table :=
  map (fun p => (name_of p, p)) projects.

(** A plan reference that names a project, the last one that bears the
    name being true in the Python sense. *)
Definition found_last (projects : list value) (n : value) : bool :=
  hashable n
  && match last_named n projects with
     | Some p => truthy p
     | None => false
     end.

(** The item [it] was built from the last project that bears the name
    [n]. *)
Definition from_last (logo_dir : option string) (projects : list value)
  (n : value) (it : item) : Prop :=
  exists p, last_named n projects = Some p /\ built_from logo_dir p it.

Definition sub_by_last (logo_dir : option string) (projects : list value)
  (sub : value) (s : subcategory) : Prop :=
  py_get sub "name" (VStr EmptyString) = Ok (sub_name s)
  /\ Forall2 (from_last logo_dir projects)
             (filter (found_last projects) (sub_refs sub)) (sub_items s).

Definition cat_by_last (logo_dir : option string) (projects : list value)
  (cat : value) (c : category) : Prop :=
  py_get cat "name" (VStr EmptyString) = Ok (cat_name c)
  /\ Forall2 (sub_by_last logo_dir projects) (sub_defs cat) (cat_subs c).

(** The names that the plan leaves over, in order of first load. *)
Definition unassigned_names (projects plan : list value) : list value :=
  filter (fun k => negb (kmem k (filter (found_last projects)
                                        (plan_refs plan))))
         (first_seen key_eqb (map name_of projects)).

(** The document of the static builder, told by names alone: under the
    plan one item for each reference that names a project, and under
    Unmapped/Misc one item for each name left over, every item built from
    the last project that bears the name. *)
Definition by_last_name (logo_dir : option string)
  (projects plan : list value) (doc : list category) : Prop :=
  exists planned rest,
    Forall2 (cat_by_last logo_dir projects) plan planned
    /\ Forall2 (from_last logo_dir projects)
               (unassigned_names projects plan) rest
    /\ doc = with_unmapped planned rest.

(** [main]'s first statement: the projects come from the input file when
    one is given and from the API otherwise. *)
Definition load_projects (env : outside) (args : arguments) : M value :=
  match input_given args with
  | Some path => load_projects_from_file env path
  | None => fetch_projects_from_api env
  end.

(** What [main] does once the projects are loaded, up to the document. *)
Definition build_document (env : outside) (args : arguments)
  (projects : value) : M (list category) :=
  if path_exists env (arg_categories args)
  then
    static_categories <- load_static_categories env (arg_categories args) ;;
    static_on projects static_categories (Some logos)
  else dynamic_on projects (Some logos).

(** An outside like [ex_outside] whose printer writes one dash for each
    item of the document. *)
Definition ex_printing (projects : value) (plan : option value) : outside :=
  mkOutside (fun _ => Raise TypeError)
            (fun path => if (path =? "projects.json")%string
                         then Ok projects else Raise OSError)
            (fun path => match plan with
                         | Some doc => Ok doc
                         | None => Raise OSError
                         end)
            (fun path => match plan with Some _ => true | None => false end)
            (fun doc => map (fun _ => Byte.x2d) (all_items doc)).

Definition ex_logo_item : item :=
  [("name", VStr "L"); ("description", VNone); ("homepage_url", VNone);
   ("logo", VStr "logo.png")].

Definition ex_printed_world : world :=
  mkWorld (fun _ => true) [] (fun _ => true)
          [("data.yml", [Byte.x2d]); ("logos/logo.png", ex_logo_bytes)].

Definition ex_new_item : item :=
  [("name", VStr "A"); ("description", VStr "new"); ("homepage_url", VNone);
   ("logo", VStr placeholder)].

(** ** Reasoning about the monad *)

Lemma bind_ok {A B : Type} (m : M A) (k : A -> M B) w b w' :
  bind m k w = (Ok b, w') ->
  exists a w1, m w = (Ok a, w1) /\ k a w1 = (Ok b, w').
Proof.
  unfold bind. destruct (m w) as [[a | e] w1]; intros H.
  - exists a, w1. split; [reflexivity | exact H].
  - discriminate H.
Qed.

Lemma bind_step {A B : Type} (m : M A) (k : A -> M B) w a w1 :
  m w = (Ok a, w1) -> bind m k w = k a w1.
Proof. intros H. unfold bind. rewrite H. reflexivity. Qed.

Lemma bind_raise {A B : Type} (m : M A) (k : A -> M B) w e w1 :
  m w = (Raise e, w1) -> bind m k w = (Raise e, w1).
Proof. intros H. unfold bind. rewrite H. reflexivity. Qed.

Lemma lift_ok {A : Type} (r : result A) w a w' :
  lift r w = (Ok a, w') -> r = Ok a /\ w' = w.
Proof. unfold lift. intros H. inversion H. split; reflexivity. Qed.

Lemma ret_ok {A : Type} (a b : A) w w' :
  ret a w = (Ok b, w') -> b = a /\ w' = w.
Proof. unfold ret. intros H. inversion H. split; reflexivity. Qed.

Lemma rbind_ok {A B : Type} (r : result A) (k : A -> result B) b :
  rbind r k = Ok b -> exists a, r = Ok a /\ k a = Ok b.
Proof.
  destruct r as [a | e]; simpl; intros H; [exists a; auto | discriminate].
Qed.

(** Peel one monadic step off a hypothesis that says a computation
    returned normally. *)
Ltac peel H :=
  match type of H with
  | bind _ _ _ = (Ok _, _) =>
      let a := fresh "a" in
      let w := fresh "w" in
      let Hm := fresh "Hm" in
      apply bind_ok in H; destruct H as (a & w & Hm & H)
  | lift _ _ = (Ok _, _) =>
      let E := fresh "E" in
      apply lift_ok in H; destruct H as [H E]; subst
  | ret _ _ = (Ok _, _) =>
      let E := fresh "E" in
      apply ret_ok in H; destruct H as [H E]; subst
  | rbind _ _ = Ok _ =>
      let a := fresh "a" in
      let Hr := fresh "Hr" in
      apply rbind_ok in H; destruct H as (a & Hr & H)
  end.

(** The invariant rule for [for] loops that return normally. *)
Lemma for_each_invariant {X S : Type} (body : X -> S -> M S)
  (I : list X -> S -> Prop) :
  (forall done x s s' w w',
      I done s -> body x s w = (Ok s', w') -> I (done ++ [x]) s') ->
  forall xs done s s' w w',
    I done s -> for_each body xs s w = (Ok s', w') -> I (done ++ xs) s'.
Proof.
  intros Hstep xs. induction xs as [| x rest IH]; intros done s s' w w' HI H.
  - simpl in H. peel H. rewrite app_nil_r. exact HI.
  - simpl in H. peel H.
    replace (done ++ x :: rest) with ((done ++ [x]) ++ rest)
      by (rewrite <- app_assoc; reflexivity).
    eapply IH; [eapply Hstep; eassumption | eassumption].
Qed.

(** A loop raises as soon as its body raises whatever the accumulator. *)
Lemma for_each_raises {X S : Type} (body : X -> S -> M S) (x : X) :
  (forall s w, exists e w', body x s w = (Raise e, w')) ->
  forall xs1 xs2 s w,
    exists e w', for_each body (xs1 ++ x :: xs2) s w = (Raise e, w').
Proof.
  intros Hx xs1. induction xs1 as [| y rest IH]; intros xs2 s w; simpl.
  - destruct (Hx s w) as (e & w' & E). exists e, w'.
    apply bind_raise. exact E.
  - unfold bind at 1. destruct (body y s w) as [[s1 | e] w1].
    + apply IH.
    + exists e, w1. reflexivity.
Qed.

(** ** Strings *)



(** ** The item record *)

Lemma assoc_dict_set_other (d : list (string * value)) (k k' : string) v :
  (k' =? k)%string = false -> assoc k (dict_set d k' v) = assoc k d.
Proof.
  intros Hk. induction d as [| [k0 v0] rest IH]; simpl.
  - rewrite Hk. reflexivity.
  - destruct (k0 =? k')%string eqn:E0; simpl.
    + apply String.eqb_eq in E0. subst k0. rewrite Hk. reflexivity.
    + destruct (k0 =? k)%string; [reflexivity | exact IH].
Qed.

Lemma assoc_dict_set_same (d : list (string * value)) (k : string) v :
  assoc k (dict_set d k v) = Some v.
Proof.
  induction d as [| [k0 v0] rest IH]; simpl.
  - rewrite String.eqb_refl. reflexivity.
  - destruct (k0 =? k)%string eqn:E0; simpl; rewrite E0; [reflexivity | exact IH].
Qed.

(** The three leading fields are written whatever the project holds. *)
Lemma item_fields_leading (d : list (string * value)) (fields : item) :
  item_fields (VDict d) = Ok fields ->
  forall k v,
    In (k, v) [("name", "name"); ("description", "summary");
               ("homepage_url", "url")] ->
    assoc k fields
    = Some (match assoc v d with Some x => x | None => VNone end).
Proof.
  unfold item_fields. simpl py_get. cbn [rbind]. intros H k v Hk.
  set (item0 := [("name", _); ("description", _); ("homepage_url", _)]) in H.
  assert (H0 : assoc k item0
               = Some (match assoc v d with Some x => x | None => VNone end)).
  { simpl in Hk. destruct Hk as [E | [E | [E | []]]]; inversion E; subst;
      reflexivity. }
  assert (Hproj : forall it x, assoc k (dict_set it "project" x) = assoc k it).
  { intros it x. apply assoc_dict_set_other.
    simpl in Hk. destruct Hk as [E | [E | [E | []]]]; inversion E; reflexivity. }
  assert (Hrepo : forall it x, assoc k (dict_set it "repo_url" x) = assoc k it).
  { intros it x. apply assoc_dict_set_other.
    simpl in Hk. destruct Hk as [E | [E | [E | []]]]; inversion E; reflexivity. }
  set (item1 := if truthy _ then dict_set item0 "project" _ else item0) in H.
  assert (H1 : assoc k item1 = assoc k item0).
  { unfold item1. destruct (truthy _); [apply Hproj | reflexivity]. }
  destruct (truthy (if truthy _ then _ else VList [])).
  - peel H. peel H. inversion H; subst.
    destruct (truthy a0); [rewrite Hrepo|]; congruence.
  - inversion H; subst. congruence.
Qed.

Lemma build_item_inv (logo_dir : option string) (p : value) (it : item) w w' :
  build_item logo_dir p w = (Ok it, w') ->
  exists fields logo_url logo,
    item_fields p = Ok fields /\
    py_get p "logo" VNone = Ok logo_url /\
    resolve_logo logo_dir logo_url w = (Ok logo, w') /\
    it = dict_set fields "logo" logo.
Proof.
  unfold build_item. intros H. peel H. peel Hm. peel H. peel Hm0. peel H.
  peel H. exists a, a0, a1. auto.
Qed.

(** ** The logo resolver *)

Lemma download_logo_returns (url : value) (dest : string) w :
  exists s w',
    download_logo url dest w = (Ok s, w') /\
    (s = placeholder \/ exists u, url = VStr u /\ s = file_name_of u).
Proof.
  unfold download_logo.
  destruct (download_logo_try url dest w) as [[s | e] w1] eqn:E.
  - exists s, w1. split; [reflexivity |].
    destruct url; simpl in E; try discriminate E.
    right. exists s0. split; [reflexivity |].
    peel E. peel E. peel E. peel E. reflexivity.
  - exists placeholder, w1. auto.
Qed.

Lemma resolve_logo_returns (logo_dir : option string) (logo_url : value) w :
  exists r w',
    resolve_logo logo_dir logo_url w = (Ok r, w') /\
    (r = logo_url
     \/ (exists u, logo_url = VStr u /\ r = VStr (file_name_of u))
     \/ r = VStr placeholder).
Proof.
  unfold resolve_logo. destruct logo_dir as [dir |].
  - destruct (truthy logo_url).
    + destruct (download_logo_returns logo_url dir w) as (s & w' & E & Hs).
      exists (VStr s), w'. split.
      * erewrite bind_step by exact E. reflexivity.
      * destruct Hs as [-> | (u & -> & ->)]; [auto | right; left; eauto].
    + exists (VStr placeholder), w. auto.
  - destruct (truthy logo_url).
    + exists logo_url, w. auto.
    + exists (VStr placeholder), w. auto.
Qed.

(** C6.  Logo resolution is total.  [download_logo] returns a string for
    every argument and every state of the world, and that string is the
    placeholder or the file name derived from the URL; the logo part of
    [build_item] returns for every logo value, and what it returns is the
    original value, the derived file name or the placeholder; for a logo
    that is a string or is absent the result is a string. *)
Theorem logo_resolution_total :
  (forall url dest w,
      exists s w',
        download_logo url dest w = (Ok s, w') /\
        (s = placeholder \/ exists u, url = VStr u /\ s = file_name_of u))
  /\ (forall logo_dir logo_url w,
         exists r w',
           resolve_logo logo_dir logo_url w = (Ok r, w') /\
           (r = logo_url
            \/ (exists u, logo_url = VStr u /\ r = VStr (file_name_of u))
            \/ r = VStr placeholder))
  /\ (forall logo_dir (logo : option string) w,
         exists s w',
           resolve_logo logo_dir (opt_value logo) w = (Ok (VStr s), w')).
Proof.
  split; [exact download_logo_returns |].
  split; [exact resolve_logo_returns |].
  intros logo_dir logo w.
  destruct (resolve_logo_returns logo_dir (opt_value logo) w)
    as (r & w' & E & Hr).
  destruct Hr as [-> | [(u & _ & ->) | ->]].
  - destruct logo as [u |].
    + exists u, w'. exact E.
    + exfalso. unfold resolve_logo in E. simpl in E.
      destruct logo_dir; inversion E.
  - eauto.
  - eauto.
Qed.

(** *** Where the derived file name is the last path segment *)

Lemma split_on_cons (sep : ascii) (s : string) :
  exists w ws, split_on sep s = w :: ws.
Proof.
  induction s as [| c rest (w & ws & IH)]; simpl.
  - eauto.
  - destruct (Ascii.eqb c sep); [eauto |]. rewrite IH. eauto.
Qed.

Lemma split_on_no_sep (sep : ascii) (s : string) :
  contains sep s = false -> split_on sep s = [s].
Proof.
  induction s as [| c rest IH]; simpl; intros H.
  - reflexivity.
  - unfold contains in *. simpl in H. apply orb_false_iff in H as [Hc Hrest].
    rewrite Ascii.eqb_sym, Hc. rewrite IH by exact Hrest. reflexivity.
Qed.

Lemma split_on_head (sep : ascii) (a b : string) :
  contains sep a = false ->
  hd EmptyString (split_on sep (a ++ String sep b)%string) = a.
Proof.
  induction a as [| c rest IH]; simpl; intros H.
  - rewrite Ascii.eqb_refl. reflexivity.
  - unfold contains in *. simpl in H. apply orb_false_iff in H as [Hc Hrest].
    rewrite Ascii.eqb_sym, Hc. specialize (IH Hrest).
    destruct (split_on_cons sep (rest ++ String sep b)%string)
      as (w & ws & E).
    rewrite E in *. simpl in *. rewrite IH. reflexivity.
Qed.

(** Text without separator appended to a string goes to its last piece. *)
Lemma split_on_app (sep : ascii) (a b : string) :
  contains sep b = false ->
  split_on sep (a ++ b)%string
  = removelast (split_on sep a)
    ++ [(last (split_on sep a) EmptyString ++ b)%string].
Proof.
  intros Hb. induction a as [| c rest IH]; simpl.
  - apply split_on_no_sep. exact Hb.
  - destruct (split_on_cons sep rest) as (w & ws & E).
    rewrite IH, E. destruct (Ascii.eqb c sep).
    + destruct ws; reflexivity.
    + destruct ws; reflexivity.
Qed.

Lemma split_on_pieces (sep c : ascii) (s : string) :
  contains c s = false ->
  Forall (fun piece => contains c piece = false) (split_on sep s).
Proof.
  induction s as [| x rest IH]; simpl; intros H.
  - constructor; [reflexivity | constructor].
  - unfold contains in H. simpl in H. apply orb_false_iff in H as [Hx Hrest].
    specialize (IH Hrest).
    destruct (Ascii.eqb x sep).
    + constructor; [reflexivity | exact IH].
    + destruct (split_on sep rest) as [| w ws].
      * constructor; [| constructor]. unfold contains. simpl.
        rewrite Hx. reflexivity.
      * inversion IH; subst. constructor; [| assumption].
        unfold contains in *. simpl. rewrite Hx. assumption.
Qed.

Lemma last_piece (sep c : ascii) (s : string) :
  contains c s = false ->
  contains c (last (split_on sep s) EmptyString) = false.
Proof.
  intros H. pose proof (split_on_pieces sep c s H) as Hall.
  induction Hall as [| w ws Hw _ IH]; [reflexivity |].
  destruct ws; [exact Hw | exact IH].
Qed.

(** The code and the description agree on every URL whose query string,
    if it has one, is free of slashes. *)
Lemma file_name_without_query (url : string) :
  contains "?" url = false ->
  file_name_of url = last_segment_without_query url.
Proof.
  intros H. unfold file_name_of, last_segment_without_query.
  rewrite (split_on_no_sep "?" url H). simpl.
  rewrite split_on_no_sep by (apply last_piece; exact H). reflexivity.
Qed.

Lemma file_name_plain_query (path query : string) :
  contains "?" path = false ->
  contains "/" query = false ->
  file_name_of (path ++ String "?" query)
  = last_segment_without_query (path ++ String "?" query).
Proof.
  intros Hpath Hquery. unfold file_name_of, last_segment_without_query.
  rewrite (split_on_head "?" path query Hpath).
  rewrite split_on_app
    by (unfold contains in *; simpl; exact Hquery).
  rewrite last_last.
  apply split_on_head. apply last_piece. exact Hpath.
Qed.

(** C7.  A logo URL whose query string contains a slash: the file is saved
    and returned under the text after the last slash of the whole URL, which
    lies inside the query string, not under the last path segment. *)
Theorem file_name_query_with_slash :
  download_logo (VStr ex_logo_url) "logos" ex_logo_world
  = (Ok "v2",
     mkWorld (mkdir_ok ex_logo_world) [] (writable ex_logo_world)
             [("logos/v2", [])])
  /\ file_name_of ex_logo_url = "v2"
  /\ last_segment_without_query ex_logo_url = "logo.png".
Proof. repeat split. Qed.

(** ** The shared item construction rule *)

(** C1.  The [homepage_url] key (and likewise [description]) is written in
    every item; for a project without a [url] field it is bound to [None]
    instead of being left out. *)
Theorem homepage_url_written_when_absent :
  forall logo_dir d it w w',
    assoc "url" d = None ->
    build_item logo_dir (VDict d) w = (Ok it, w') ->
    assoc "homepage_url" it = Some VNone.
Proof.
  intros logo_dir d it w w' Hurl H.
  apply build_item_inv in H as (fields & logo_url & logo & Hf & _ & _ & ->).
  rewrite assoc_dict_set_other by reflexivity.
  rewrite (item_fields_leading _ _ Hf "homepage_url" "url") by (simpl; auto).
  rewrite Hurl. reflexivity.
Qed.

Lemma homepage_url_written_when_absent_witness :
  build_item None ex_no_homepage quiet_world = (Ok (plain "A"), quiet_world)
  /\ assoc "homepage_url" (plain "A") = Some VNone.
Proof.
  split; [reflexivity |].
  apply (homepage_url_written_when_absent None [("name", VStr "A")] (plain "A")
           quiet_world quiet_world); reflexivity.
Defined.

(** ** Dynamic mode: the labels *)





(** C10.  A project whose [category] key is bound to [None] makes the loop
    body raise [AttributeError], so the whole dynamic build raises, whatever
    the other projects are. *)
Theorem null_category_raises :
  forall logo_dir d,
    assoc "category" d = Some VNone ->
    (forall categories w,
        dynamic_step logo_dir (VDict d) categories w
        = (Raise AttributeError, w))
    /\ (forall ps1 ps2 w,
           exists e w',
             build_landscape_from_dynamic (ps1 ++ VDict d :: ps2) logo_dir w
             = (Raise e, w')).
Proof.
  intros logo_dir d Hd.
  assert (Hstep : forall categories w,
             dynamic_step logo_dir (VDict d) categories w
             = (Raise AttributeError, w)).
  { intros categories w. unfold dynamic_step. simpl py_get. rewrite Hd.
    reflexivity. }
  split; [exact Hstep |].
  intros ps1 ps2 w. unfold build_landscape_from_dynamic.
  unfold bind at 1. destruct (ensure_dir logo_dir w) as [[[] | e] w1].
  - destruct (for_each_raises (dynamic_step logo_dir) (VDict d)
                (fun s w0 => ex_intro _ AttributeError
                               (ex_intro _ w0 (Hstep s w0))) ps1 ps2 [] w1)
      as (e & w' & E).
    exists e, w'. apply bind_raise. exact E.
  - exists e, w1. reflexivity.
Qed.

Lemma null_category_raises_witness :
  build_landscape_from_dynamic [VDict ex_null_category] None quiet_world
  = (Raise AttributeError, quiet_world).
Proof.
  destruct (null_category_raises None ex_null_category eq_refl) as [Hstep _].
  unfold build_landscape_from_dynamic.
  erewrite bind_step by reflexivity.
  apply bind_raise. simpl for_each. apply bind_raise. apply Hstep.
Defined.

(** ** Keys *)

Lemma key_eqb_sym (a b : value) : key_eqb a b = key_eqb b a.
Proof.
  destruct a, b; simpl; try reflexivity;
    try apply Z.eqb_sym; try apply String.eqb_sym.
Qed.

Lemma key_eqb_refl (a : value) : hashable a = true -> key_eqb a a = true.
Proof.
  destruct a; simpl; intros H; try discriminate H; try reflexivity;
    try apply Z.eqb_refl; try apply String.eqb_refl.
Qed.

Lemma key_eqb_trans (a b c : value) :
  key_eqb a b = true -> key_eqb b c = true -> key_eqb a c = true.
Proof.
  destruct a, b, c; simpl; intros H1 H2;
    try discriminate H1; try discriminate H2; try reflexivity;
    try (apply Z.eqb_eq in H1; apply Z.eqb_eq in H2; apply Z.eqb_eq; lia);
    try (apply String.eqb_eq in H1; apply String.eqb_eq in H2;
         apply String.eqb_eq; congruence).
Qed.

Lemma key_eqb_hashable (a b : value) :
  key_eqb a b = true -> hashable a = true /\ hashable b = true.
Proof.
  destruct a, b; simpl; intros H; try discriminate H; auto.
Qed.

(** Keys equal to the same key behave alike in every comparison. *)
Lemma key_eqb_congr (a b c : value) :
  key_eqb a b = true -> key_eqb a c = key_eqb b c.
Proof.
  intros Hab. destruct (key_eqb b c) eqn:Hbc.
  - eapply key_eqb_trans; eassumption.
  - destruct (key_eqb a c) eqn:Hac; [| reflexivity].
    rewrite key_eqb_sym in Hab.
    rewrite (key_eqb_trans _ _ _ Hab Hac) in Hbc. discriminate Hbc.
Qed.

Lemma kmem_app (k : value) (s1 s2 : list value) :
  kmem k (s1 ++ s2) = kmem k s1 || kmem k s2.
Proof. unfold kmem. apply existsb_app. Qed.

Lemma kmem_false_in (k : value) (s : list value) :
  kmem k s = false -> forall x, In x s -> key_eqb k x = false.
Proof.
  unfold kmem. induction s as [| y rest IH]; simpl; intros H x Hin.
  - destruct Hin.
  - apply orb_false_iff in H as [Hy Hrest].
    destruct Hin as [<- | Hin]; [exact Hy | apply IH; assumption].
Qed.

Lemma kmem_true_in (k : value) (s : list value) :
  kmem k s = true -> exists x, In x s /\ key_eqb k x = true.
Proof. unfold kmem. apply existsb_exists. Qed.

Lemma kmem_congr (a b : value) (s : list value) :
  key_eqb a b = true -> kmem a s = kmem b s.
Proof.
  intros Hab. unfold kmem. induction s as [| x rest IH]; simpl.
  - reflexivity.
  - rewrite (key_eqb_congr _ _ x Hab), IH. reflexivity.
Qed.

Lemma kmem_kadd (k n : value) (s : list value) :
  kmem k (kadd n s) = kmem k s || key_eqb k n.
Proof.
  unfold kadd. destruct (kmem n s) eqn:Hn.
  - destruct (key_eqb k n) eqn:Hk.
    + rewrite (kmem_congr _ _ s Hk), Hn. reflexivity.
    + rewrite orb_false_r. reflexivity.
  - rewrite kmem_app. simpl. rewrite orb_false_r. reflexivity.
Qed.

(** ** The lookup table *)

Lemma kfind_none (k : value) (d : table) :
  kfind k d = None <-> kmem k (map fst d) = false.
Proof.
  induction d as [| [k' v] rest IH]; simpl.
  - split; reflexivity.
  - rewrite (key_eqb_sym k k'). destruct (key_eqb k' k); simpl.
    + split; discriminate.
    + exact IH.
Qed.

Lemma kfind_kinsert (n k p : value) (d : table) :
  kfind n (kinsert k p d) = if key_eqb k n then Some p else kfind n d.
Proof.
  induction d as [| [k' v] rest IH]; simpl.
  - reflexivity.
  - destruct (key_eqb k' k) eqn:Hk; simpl.
    + rewrite (key_eqb_congr _ _ n Hk). destruct (key_eqb k n); reflexivity.
    + destruct (key_eqb k' n) eqn:Hn.
      * destruct (key_eqb k n) eqn:Hkn; [| reflexivity].
        rewrite key_eqb_sym in Hkn.
        rewrite (key_eqb_trans _ _ _ Hn Hkn) in Hk. discriminate Hk.
      * exact IH.
Qed.

Lemma keys_kinsert (k p : value) (d : table) :
  map fst (kinsert k p d)
  = if kmem k (map fst d) then map fst d else map fst d ++ [k].
Proof.
  induction d as [| [k' v] rest IH]; simpl.
  - reflexivity.
  - rewrite (key_eqb_sym k k'). destruct (key_eqb k' k); simpl.
    + reflexivity.
    + rewrite IH. destruct (kmem k (map fst rest)); reflexivity.
Qed.

Lemma values_kinsert (P : value -> Prop) (k p : value) (d : table) :
  P p -> Forall P (map snd d) -> Forall P (map snd (kinsert k p d)).
Proof.
  intros Hp. induction d as [| [k' v] rest IH]; simpl; intros H.
  - constructor; [exact Hp | constructor].
  - inversion H; subst. destruct (key_eqb k' k); simpl.
    + constructor; assumption.
    + constructor; [assumption | apply IH; assumption].
Qed.

Lemma first_seen_snoc {A : Type} (eqb : A -> A -> bool) (l : list A) (x : A) :
  first_seen eqb (l ++ [x])
  = if existsb (eqb x) (first_seen eqb l)
    then first_seen eqb l else first_seen eqb l ++ [x].
Proof. unfold first_seen. rewrite fold_left_app. reflexivity. Qed.

Lemma last_named_snoc (n p : value) (projects : list value) :
  last_named n (projects ++ [p])
  = if key_eqb (name_of p) n then Some p else last_named n projects.
Proof. unfold last_named. rewrite rev_app_distr. reflexivity. Qed.

Lemma distinct_keys_snoc (ks : list value) (k : value) :
  kmem k ks = false -> distinct_keys ks = true ->
  distinct_keys (ks ++ [k]) = true.
Proof.
  induction ks as [| x rest IH]; simpl; intros Hk Hd.
  - reflexivity.
  - apply orb_false_iff in Hk as [Hkx Hk].
    apply andb_true_iff in Hd as [Hx Hd].
    rewrite kmem_app. simpl. rewrite (key_eqb_sym x k), Hkx.
    repeat rewrite orb_false_r. rewrite Hx. simpl. apply IH; assumption.
Qed.

Lemma index_step_inv (p : value) (d d' : table) w w' :
  index_step p d w = (Ok d', w') ->
  w' = w /\ hashable (name_of p) = true /\ d' = kinsert (name_of p) p d.
Proof.
  unfold index_step, name_of. intros H. peel H. peel Hm. rewrite Hm.
  destruct (hashable a) eqn:Hh.
  - peel H. auto.
  - apply lift_ok in H as [H _]. discriminate H.
Qed.

(** The dict comprehension builds the lookup of the projects. *)
Lemma index_loop (projects : list value) (tbl : table) w w' :
  for_each index_step projects [] w = (Ok tbl, w') -> indexes tbl projects.
Proof.
  intros H.
  apply (for_each_invariant index_step (fun done d => indexes d done))
    with (done := []) in H; [exact H | | ].
  - clear. intros done p d d' w w' (Hkeys & Hfind & Hdist & Hhash) H.
    apply index_step_inv in H as (_ & Hh & ->).
    unfold indexes. rewrite keys_kinsert, map_app. cbn [map].
    rewrite first_seen_snoc.
    rewrite <- Hkeys. fold (kmem (name_of p) (map fst d)).
    repeat split.
    + intros n. rewrite kfind_kinsert, last_named_snoc, Hfind. reflexivity.
    + destruct (kmem (name_of p) (map fst d)) eqn:Hm;
        [exact Hdist | apply distinct_keys_snoc; assumption].
    + destruct (kmem (name_of p) (map fst d));
        [exact Hhash |].
      apply Forall_app. split; [exact Hhash | constructor; [exact Hh | constructor]].
  - unfold indexes. simpl. repeat split; constructor.
Qed.

(** In a table with distinct hashable keys every entry is the one that
    its key finds. *)
Lemma kfind_entry (tbl : table) (k p : value) :
  distinct_keys (map fst tbl) = true ->
  Forall (fun k => hashable k = true) (map fst tbl) ->
  In (k, p) tbl -> kfind k tbl = Some p.
Proof.
  induction tbl as [| [k0 p0] rest IH]; simpl; intros Hd Hh Hin.
  - destruct Hin.
  - apply andb_true_iff in Hd as [H0 Hd]. inversion Hh as [| ? ? Hh0 Hhr]; subst.
    destruct Hin as [E | Hin].
    + inversion E; subst. rewrite key_eqb_refl by exact Hh0. reflexivity.
    + destruct (key_eqb k0 k) eqn:Hk.
      * exfalso. apply negb_true_iff in H0.
        rewrite (kmem_false_in _ _ H0 k) in Hk; [discriminate Hk |].
        apply (in_map fst) in Hin. exact Hin.
      * apply IH; assumption.
Qed.

(** ** Static mode: the loops *)

Lemma table_get_truthy (tbl : table) (n v : value) :
  table_get tbl n = Ok v ->
  found tbl n = truthy v
  /\ (truthy v = true -> kfind n tbl = Some v)
  /\ hashable n = true.
Proof.
  unfold found. intros H. rewrite H. split; [reflexivity |].
  unfold table_get in H. destruct (hashable n); [| discriminate H].
  split; [| reflexivity].
  intros Hv. destruct (kfind n tbl) as [p |].
  - inversion H; reflexivity.
  - inversion H; subst. discriminate Hv.
Qed.

Lemma filter_snoc {A : Type} (f : A -> bool) (l : list A) (x : A) :
  filter f (l ++ [x]) = filter f l ++ (if f x then [x] else []).
Proof. rewrite filter_app. simpl. destruct (f x); reflexivity. Qed.

Section StaticLoops.

Variable logo_dir : option string.
Variable tbl : table.

Lemma item_loop (names : list value) (assigned0 : list value)
  (items : list item) (assigned : list value) w w' :
  for_each (item_step logo_dir tbl) names ([], assigned0) w
  = (Ok (items, assigned), w') ->
  Forall2 (from_ref logo_dir tbl) (filter (found tbl) names) items
  /\ (forall k, kmem k assigned
                = kmem k assigned0 || kmem k (filter (found tbl) names)).
Proof.
  intros H.
  apply (for_each_invariant (item_step logo_dir tbl)
           (fun done s =>
              Forall2 (from_ref logo_dir tbl) (filter (found tbl) done) (fst s)
              /\ (forall k, kmem k (snd s)
                            = kmem k assigned0
                              || kmem k (filter (found tbl) done))))
    with (done := []) in H; [exact H | | ].
  - clear. intros done n [its asg] s' w w' [Hits Hasg] H.
    simpl in Hits, Hasg. unfold item_step in H. peel H. peel Hm.
    destruct (table_get_truthy _ _ _ Hm) as (Hfound & Hfind & _).
    rewrite filter_snoc, Hfound.
    destruct (truthy a) eqn:Ht.
    + peel H. peel H. simpl. split.
      * apply Forall2_app; [exact Hits |].
        constructor; [| constructor].
        exists a. split; [apply Hfind; reflexivity | do 2 eexists; exact Hm0].
      * intros k. rewrite kmem_kadd, Hasg, kmem_app. simpl.
        rewrite orb_false_r, orb_assoc. reflexivity.
    + peel H. simpl. rewrite app_nil_r. split; [exact Hits | exact Hasg].
  - simpl. split; [constructor |]. intros k. rewrite orb_false_r. reflexivity.
Qed.

Lemma sub_step_inv (sub : value) (subs : list subcategory)
  (assigned : list value) s' w w' :
  sub_step logo_dir tbl sub (subs, assigned) w = (Ok s', w') ->
  exists new,
    fst s' = subs ++ [new]
    /\ sub_matches logo_dir tbl sub new
    /\ (forall k, kmem k (snd s')
                  = kmem k assigned
                    || kmem k (filter (found tbl) (sub_refs sub))).
Proof.
  unfold sub_step. intros H. peel H. peel Hm. peel H. peel Hm0. peel H.
  peel Hm1. peel H. destruct a2 as [items assigned']. peel H.
  apply item_loop in Hm2 as [Hitems Hasg].
  assert (Hrefs : sub_refs sub = a1).
  { unfold sub_refs, listed. rewrite Hm0, Hm1. reflexivity. }
  exists (mkSub a items). simpl. rewrite Hrefs.
  split; [reflexivity |]. split; [| exact Hasg].
  split; [exact Hm | simpl; rewrite Hrefs; exact Hitems].
Qed.

Lemma sub_loop (subs : list value) (assigned0 : list value)
  (new_subs : list subcategory) (assigned : list value) w w' :
  for_each (sub_step logo_dir tbl) subs ([], assigned0) w
  = (Ok (new_subs, assigned), w') ->
  Forall2 (sub_matches logo_dir tbl) subs new_subs
  /\ (forall k, kmem k assigned
                = kmem k assigned0
                  || kmem k (filter (found tbl) (flat_map sub_refs subs))).
Proof.
  intros H.
  apply (for_each_invariant (sub_step logo_dir tbl)
           (fun done s =>
              Forall2 (sub_matches logo_dir tbl) done (fst s)
              /\ (forall k, kmem k (snd s)
                            = kmem k assigned0
                              || kmem k (filter (found tbl)
                                                (flat_map sub_refs done)))))
    with (done := []) in H; [exact H | | ].
  - clear. intros done sub [subs asg] s' w w' [Hsubs Hasg] H.
    simpl in Hsubs, Hasg.
    apply sub_step_inv in H as (new & -> & Hnew & Hasg').
    split.
    + apply Forall2_app; [exact Hsubs | constructor; [exact Hnew | constructor]].
    + intros k. rewrite Hasg', Hasg, flat_map_app, filter_app, kmem_app.
      simpl. rewrite app_nil_r, orb_assoc. reflexivity.
  - simpl. split; [constructor |]. intros k. rewrite orb_false_r. reflexivity.
Qed.

Lemma cat_step_inv (cat : value) (cats : list category)
  (assigned : list value) s' w w' :
  cat_step logo_dir tbl cat (cats, assigned) w = (Ok s', w') ->
  exists new,
    fst s' = cats ++ [new]
    /\ cat_matches logo_dir tbl cat new
    /\ (forall k, kmem k (snd s')
                  = kmem k assigned
                    || kmem k (filter (found tbl)
                                      (flat_map sub_refs (sub_defs cat)))).
Proof.
  unfold cat_step. intros H. peel H. peel Hm. peel H. peel Hm0. peel H.
  peel Hm1. peel H. destruct a2 as [new_subs assigned']. peel H.
  apply sub_loop in Hm2 as [Hsubs Hasg].
  assert (Hdefs : sub_defs cat = a1).
  { unfold sub_defs, listed. rewrite Hm0, Hm1. reflexivity. }
  exists (mkCat a new_subs). simpl. rewrite Hdefs.
  split; [reflexivity |]. split; [| exact Hasg].
  split; [exact Hm | simpl; rewrite Hdefs; exact Hsubs].
Qed.

Lemma cat_loop (plan : list value) (cats : list category)
  (assigned : list value) w w' :
  for_each (cat_step logo_dir tbl) plan ([], []) w
  = (Ok (cats, assigned), w') ->
  Forall2 (cat_matches logo_dir tbl) plan cats
  /\ (forall k, kmem k assigned = kmem k (assigned_refs tbl plan)).
Proof.
  intros H.
  apply (for_each_invariant (cat_step logo_dir tbl)
           (fun done s =>
              Forall2 (cat_matches logo_dir tbl) done (fst s)
              /\ (forall k, kmem k (snd s)
                            = kmem k (assigned_refs tbl done))))
    with (done := []) in H; [exact H | | ].
  - clear. intros done cat [cats asg] s' w w' [Hcats Hasg] H.
    simpl in Hcats, Hasg.
    apply cat_step_inv in H as (new & -> & Hnew & Hasg').
    split.
    + apply Forall2_app; [exact Hcats | constructor; [exact Hnew | constructor]].
    + intros k. unfold assigned_refs, plan_refs.
      rewrite Hasg', Hasg, flat_map_app, filter_app, kmem_app.
      simpl. rewrite app_nil_r. reflexivity.
  - simpl. split; [constructor | reflexivity].
Qed.

Lemma unassigned_loop (assigned : list value) (entries : table)
  (items : list item) w w' :
  for_each (unassigned_step logo_dir assigned) entries [] w
  = (Ok items, w') ->
  Forall2 (fun e it => built_from logo_dir (snd e) it)
          (filter (fun e => negb (kmem (fst e) assigned)) entries) items.
Proof.
  intros H.
  apply (for_each_invariant (unassigned_step logo_dir assigned)
           (fun done its =>
              Forall2 (fun e it => built_from logo_dir (snd e) it)
                      (filter (fun e => negb (kmem (fst e) assigned)) done)
                      its))
    with (done := []) in H; [exact H | | constructor].
  clear. intros done [k p] its its' w w' Hits H.
  unfold unassigned_step in H. rewrite filter_snoc. simpl.
  destruct (kmem k assigned); simpl.
  - peel H. rewrite app_nil_r. exact Hits.
  - peel H. peel H. apply Forall2_app; [exact Hits |].
    constructor; [do 2 eexists; exact Hm | constructor].
Qed.

End StaticLoops.

(** The shape of every document that the static builder returns. *)
Lemma static_run (projects plan : list value) (logo_dir : option string)
  (out : list category) w w' :
  build_landscape_from_static projects plan logo_dir w = (Ok out, w') ->
  exists tbl planned rest,
    (exists w1, for_each index_step projects [] w = (Ok tbl, w1))
    /\ indexes tbl projects
    /\ Forall2 (cat_matches logo_dir tbl) plan planned
    /\ Forall2 (fun e it => built_from logo_dir (snd e) it)
               (leftover tbl plan) rest
    /\ out = planned ++ match rest with
                        | [] => []
                        | _ :: _ => [unmapped rest]
                        end.
Proof.
  unfold build_landscape_from_static. intros H.
  peel H. peel H. peel H. destruct a1 as [cats assigned]. peel H. peel H.
  pose proof (index_loop _ _ _ _ Hm) as Hidx.
  apply cat_loop in Hm1 as [Hcats Hasg].
  apply unassigned_loop in Hm2.
  exists a, cats, a1. split; [eexists; exact Hm |].
  split; [exact Hidx |]. split; [exact Hcats |].
  split.
  - unfold leftover.
    rewrite (filter_ext _ (fun e => negb (kmem (fst e) assigned))); [exact Hm2 |].
    intros e. rewrite Hasg. reflexivity.
  - destruct a1; [rewrite app_nil_r |]; reflexivity.
Qed.

(** ** Static mode: duplicate names *)

Lemma find_some_holds {A : Type} (f : A -> bool) (l : list A) (x : A) :
  find f l = Some x -> f x = true.
Proof. intros H. apply find_some in H. apply H. Qed.

Lemma from_ref_last (logo_dir : option string) (tbl : table)
  (projects : list value) :
  indexes tbl projects ->
  forall n it,
    from_ref logo_dir tbl n it ->
    exists p, last_named n projects = Some p
              /\ key_eqb (name_of p) n = true
              /\ built_from logo_dir p it.
Proof.
  intros (_ & Hfind & _) n it (p & Hp & Hit).
  rewrite Hfind in Hp. exists p. split; [exact Hp |].
  split; [| exact Hit].
  unfold last_named in Hp. apply find_some_holds in Hp. exact Hp.
Qed.

Lemma Forall2_Forall_r {A B : Type} (R : A -> B -> Prop) (Q : B -> Prop)
  (l : list A) (l' : list B) :
  (forall a b, In a l -> R a b -> Q b) -> Forall2 R l l' -> Forall Q l'.
Proof.
  intros HRQ H. induction H as [| a b l l' Hab _ IH].
  - constructor.
  - constructor.
    + apply (HRQ a b); [left; reflexivity | exact Hab].
    + apply IH. intros a' b' Hin. apply HRQ. right. exact Hin.
Qed.

Lemma Forall_flat_map {A B : Type} (Q : B -> Prop) (f : A -> list B)
  (l : list A) :
  Forall (fun a => Forall Q (f a)) l -> Forall Q (flat_map f l).
Proof.
  induction 1 as [| a l Ha _ IH]; simpl.
  - constructor.
  - apply Forall_app. split; assumption.
Qed.

(** Every item of a static document was built from the last project that
    bears some name. *)
Lemma static_items_from_last (projects plan : list value)
  (logo_dir : option string) (out : list category) w w' :
  build_landscape_from_static projects plan logo_dir w = (Ok out, w') ->
  Forall (fun it => exists n p,
              last_named n projects = Some p
              /\ key_eqb (name_of p) n = true
              /\ built_from logo_dir p it)
         (all_items out).
Proof.
  intros H.
  apply static_run in H as (tbl & planned & rest & _ & Hidx & Hcats & Hrest & ->).
  unfold all_items. rewrite flat_map_app. apply Forall_app. split.
  - apply Forall_flat_map.
    refine (Forall2_Forall_r _ _ _ _ _ Hcats).
    intros cat c _ [_ Hsubs]. apply Forall_flat_map.
    refine (Forall2_Forall_r _ _ _ _ _ Hsubs).
    intros sub s _ [_ Hitems].
    refine (Forall2_Forall_r _ _ _ _ _ Hitems).
    intros n it _ Hit. exists n. eapply from_ref_last; eassumption.
  - assert (Hrest' : Forall (fun it => exists n p,
                                last_named n projects = Some p
                                /\ key_eqb (name_of p) n = true
                                /\ built_from logo_dir p it) rest).
    { refine (Forall2_Forall_r _ _ _ _ _ Hrest).
      intros [k p] it Hin Hit. simpl in Hit.
      unfold leftover in Hin. apply filter_In in Hin as [Hin _].
      destruct Hidx as (Hkeys & Hfind & Hdist & Hhash).
      pose proof (kfind_entry _ _ _ Hdist Hhash Hin) as Hk.
      rewrite Hfind in Hk. exists k, p. split; [exact Hk |].
      split; [| exact Hit].
      unfold last_named in Hk. apply find_some_holds in Hk. exact Hk. }
    destruct rest as [| it rest']; simpl; [constructor |].
    rewrite !app_nil_r. exact Hrest'.
Qed.

(** ** Normal termination on well-formed input *)

Lemma for_each_total {X S : Type} (body : X -> S -> M S)
  (P : X -> Prop) (I : S -> Prop) :
  (forall x s w, P x -> I s ->
                 exists s' w', body x s w = (Ok s', w') /\ I s') ->
  forall xs s w,
    Forall P xs -> I s ->
    exists s' w', for_each body xs s w = (Ok s', w') /\ I s'.
Proof.
  intros Hbody xs. induction xs as [| x rest IH]; intros s w HP HI; simpl.
  - exists s, w. split; [reflexivity | exact HI].
  - inversion HP as [| ? ? Hx Hrest]; subst.
    destruct (Hbody x s w Hx HI) as (s1 & w1 & E & HI1).
    destruct (IH s1 w1 Hrest HI1) as (s' & w' & E' & HI').
    exists s', w'. split; [| exact HI'].
    erewrite bind_step by exact E. exact E'.
Qed.

Lemma wf_project_dict (p : value) :
  wf_project p = true ->
  exists d fields, p = VDict d /\ item_fields p = Ok fields
                   /\ hashable (name_of p) = true.
Proof.
  unfold wf_project. destruct (item_fields p) as [fields | e] eqn:E;
    [| discriminate].
  intros Hh. destruct p; try discriminate E. eauto.
Qed.

Lemma build_item_total (logo_dir : option string) (p : value) w :
  wf_project p = true ->
  exists it w', build_item logo_dir p w = (Ok it, w').
Proof.
  intros Hp. apply wf_project_dict in Hp as (d & fields & -> & Hf & _).
  unfold build_item. rewrite Hf.
  erewrite bind_step by reflexivity.
  erewrite bind_step by reflexivity.
  destruct (resolve_logo_returns logo_dir
              (match assoc "logo" d with Some v => v | None => VNone end) w)
    as (r & w' & E & _).
  erewrite bind_step by exact E. eexists. eexists. reflexivity.
Qed.

Lemma index_loop_total (projects : list value) w :
  forallb wf_project projects = true ->
  exists tbl w',
    for_each index_step projects [] w = (Ok tbl, w') /\ all_wf tbl.
Proof.
  intros H.
  apply (for_each_total index_step (fun p => wf_project p = true) all_wf).
  - clear. intros p d w Hp Hd.
    exists (kinsert (name_of p) p d), w. split.
    + apply wf_project_dict in Hp as (d0 & fields & -> & _ & Hh).
      unfold index_step. erewrite bind_step by reflexivity.
      unfold name_of in Hh. simpl in Hh. simpl. rewrite Hh. reflexivity.
    + apply values_kinsert; assumption.
  - apply Forall_forall. apply forallb_forall. exact H.
  - constructor.
Qed.

Lemma kfind_in (n p : value) (tbl : table) :
  kfind n tbl = Some p -> In p (map snd tbl).
Proof.
  induction tbl as [| [k v] rest IH]; simpl; intros H.
  - discriminate H.
  - destruct (key_eqb k n).
    + inversion H. left. reflexivity.
    + right. apply IH. exact H.
Qed.

Section StaticTotal.

Variable logo_dir : option string.
Variable tbl : table.
Hypothesis tbl_wf : all_wf tbl.

Lemma item_step_total (n : value) (acc : list item * list value) w :
  hashable n = true ->
  exists acc' w', item_step logo_dir tbl n acc w = (Ok acc', w').
Proof.
  intros Hn. destruct acc as [items assigned]. unfold item_step.
  unfold table_get. rewrite Hn.
  erewrite bind_step by reflexivity.
  destruct (kfind n tbl) as [p |] eqn:Hp.
  - destruct (truthy p); [| eexists; eexists; reflexivity].
    assert (Hwf : wf_project p = true).
    { apply kfind_in in Hp. unfold all_wf in tbl_wf.
      rewrite Forall_forall in tbl_wf. apply tbl_wf. exact Hp. }
    destruct (build_item_total logo_dir p w Hwf) as (it & w' & E).
    erewrite bind_step by exact E. eexists. eexists. reflexivity.
  - simpl. eexists. eexists. reflexivity.
Qed.

Lemma sub_step_total (sub : value) (acc : list subcategory * list value) w :
  wf_sub sub = true ->
  exists acc' w', sub_step logo_dir tbl sub acc w = (Ok acc', w').
Proof.
  intros Hsub. destruct acc as [subs assigned]. unfold sub_step.
  unfold wf_sub in Hsub. destruct sub; try discriminate Hsub.
  erewrite bind_step by reflexivity.
  erewrite bind_step by reflexivity.
  cbn [rbind py_get] in Hsub.
  destruct (py_iter (match assoc "items" d with
                     | Some v => v | None => VList [] end))
    as [refs | e] eqn:Hrefs; [| discriminate Hsub].
  erewrite bind_step by reflexivity.
  destruct (for_each_total (item_step logo_dir tbl)
              (fun n => hashable n = true) (fun _ => True)
              (fun n s w0 Hn _ =>
                 match item_step_total n s w0 Hn with
                 | ex_intro _ s' (ex_intro _ w' E) =>
                     ex_intro _ s' (ex_intro _ w' (conj E I))
                 end)
              refs ([], assigned) w)
    as ([items assigned'] & w' & E & _).
  - apply Forall_forall. apply forallb_forall. exact Hsub.
  - exact I.
  - erewrite bind_step by exact E. eexists. eexists. reflexivity.
Qed.

Lemma cat_step_total (cat : value) (acc : list category * list value) w :
  wf_cat cat = true ->
  exists acc' w', cat_step logo_dir tbl cat acc w = (Ok acc', w').
Proof.
  intros Hcat. destruct acc as [cats assigned]. unfold cat_step.
  unfold wf_cat in Hcat. destruct cat; try discriminate Hcat.
  erewrite bind_step by reflexivity.
  erewrite bind_step by reflexivity.
  cbn [rbind py_get] in Hcat.
  destruct (py_iter (match assoc "subcategories" d with
                     | Some v => v | None => VList [] end))
    as [subs | e] eqn:Hsubs; [| discriminate Hcat].
  erewrite bind_step by reflexivity.
  destruct (for_each_total (sub_step logo_dir tbl)
              (fun sub => wf_sub sub = true) (fun _ => True)
              (fun sub s w0 Hs _ =>
                 match sub_step_total sub s w0 Hs with
                 | ex_intro _ s' (ex_intro _ w' E) =>
                     ex_intro _ s' (ex_intro _ w' (conj E I))
                 end)
              subs ([], assigned) w)
    as ([new_subs assigned'] & w' & E & _).
  - apply Forall_forall. apply forallb_forall. exact Hcat.
  - exact I.
  - erewrite bind_step by exact E. eexists. eexists. reflexivity.
Qed.

Lemma unassigned_step_total (assigned : list value) (e : value * value)
  (items : list item) w :
  wf_project (snd e) = true ->
  exists items' w',
    unassigned_step logo_dir assigned e items w = (Ok items', w').
Proof.
  intros He. destruct e as [k p]. unfold unassigned_step.
  destruct (kmem k assigned); [eexists; eexists; reflexivity |].
  destruct (build_item_total logo_dir p w He) as (it & w' & E).
  erewrite bind_step by exact E. eexists. eexists. reflexivity.
Qed.

End StaticTotal.

Lemma ensure_dir_ready (logo_dir : option string) w :
  dir_ready logo_dir w = true -> ensure_dir logo_dir w = (Ok tt, w).
Proof.
  destruct logo_dir as [dir |]; simpl; intros H; [| reflexivity].
  unfold mkdir. rewrite H. reflexivity.
Qed.

(** The downloads leave the directory oracle alone, and the static builder
    asks for the directory before any download. *)
Lemma static_total (projects plan : list value) (logo_dir : option string) w :
  forallb wf_project projects = true ->
  forallb wf_cat plan = true ->
  dir_ready logo_dir w = true ->
  exists out w',
    build_landscape_from_static projects plan logo_dir w = (Ok out, w').
Proof.
  intros Hps Hplan Hdir. unfold build_landscape_from_static.
  destruct (index_loop_total projects w Hps) as (tbl & w1 & E1 & Hwf).
  erewrite bind_step by exact E1.
  assert (Hw1 : w1 = w).
  { clear - E1. revert E1. generalize (@nil (value * value)).
    induction projects as [| p rest IH]; simpl; intros d E1.
    - peel E1. reflexivity.
    - peel E1. apply index_step_inv in Hm as (-> & _ & _).
      eapply IH. exact E1. }
  subst w1. erewrite bind_step by (apply ensure_dir_ready; exact Hdir).
  destruct (for_each_total (cat_step logo_dir tbl)
              (fun cat => wf_cat cat = true) (fun _ => True)
              (fun cat s w0 Hc _ =>
                 match cat_step_total logo_dir tbl Hwf cat s w0 Hc with
                 | ex_intro _ s' (ex_intro _ w' E) =>
                     ex_intro _ s' (ex_intro _ w' (conj E I))
                 end)
              plan ([], []) w)
    as ([cats assigned] & w2 & E2 & _).
  - apply Forall_forall. apply forallb_forall. exact Hplan.
  - exact I.
  - erewrite bind_step by exact E2.
    destruct (for_each_total (unassigned_step logo_dir assigned)
                (fun e => wf_project (snd e) = true) (fun _ => True)
                (fun e s w0 He _ =>
                   match unassigned_step_total logo_dir assigned e s w0 He with
                   | ex_intro _ s' (ex_intro _ w' E) =>
                       ex_intro _ s' (ex_intro _ w' (conj E I))
                   end)
                tbl [] w2)
      as (items & w3 & E3 & _).
    + unfold all_wf in Hwf. rewrite Forall_map in Hwf. exact Hwf.
    + exact I.
    + erewrite bind_step by exact E3. eexists. eexists. reflexivity.
Qed.

Lemma find_skips {A : Type} (f : A -> bool) (l1 l2 : list A) (x : A) :
  (forall y, In y l1 -> f y = false) -> f x = true ->
  find f (l1 ++ x :: l2) = Some x.
Proof.
  induction l1 as [| y rest IH]; simpl; intros Hl1 Hx.
  - rewrite Hx. reflexivity.
  - rewrite (Hl1 y) by (left; reflexivity).
    apply IH; [| exact Hx]. intros z Hz. apply Hl1. right. exact Hz.
Qed.

Lemma last_named_later (earlier later : list value) (p n : value) :
  key_eqb (name_of p) n = true ->
  (forall q, In q later -> key_eqb (name_of q) n = false) ->
  last_named n (earlier ++ p :: later) = Some p.
Proof.
  intros Hp Hlater. unfold last_named.
  rewrite rev_app_distr. simpl. rewrite <- app_assoc. simpl.
  apply find_skips; [| exact Hp].
  intros q Hq. apply Hlater. apply in_rev. exact Hq.
Qed.

(** ** Static mode: the plan is emitted in full *)

Lemma item_step_miss (logo_dir : option string) (tbl : table) (n : value)
  (acc : list item * list value) w :
  hashable n = true -> kfind n tbl = None ->
  item_step logo_dir tbl n acc w = (Ok acc, w).
Proof.
  intros Hn Hfind. destruct acc as [items assigned]. unfold item_step.
  unfold table_get. rewrite Hn, Hfind. reflexivity.
Qed.

Lemma sub_matches_all_miss (logo_dir : option string) (tbl : table)
  (sub : value) (s : subcategory) :
  sub_matches logo_dir tbl sub s ->
  forallb (fun n => negb (found tbl n)) (sub_refs sub) = true ->
  sub_items s = [].
Proof.
  intros [_ Hitems] Hmiss.
  assert (Hnil : filter (found tbl) (sub_refs sub) = []).
  { clear Hitems.
    induction (sub_refs sub) as [| n rest IH]; simpl in *; [reflexivity |].
    apply andb_true_iff in Hmiss as [Hn Hrest].
    apply negb_true_iff in Hn. rewrite Hn. apply IH. exact Hrest. }
  rewrite Hnil in Hitems. inversion Hitems. reflexivity.
Qed.

(** C9.  On well-formed projects and plan the static builder returns, and
    the first categories of its document are those of the plan, one for one
    and in plan order, each with all its subcategories in plan order, whether
    their references are answered by the lookup or not; a subcategory all of
    whose references miss is there with an empty item list; a reference that
    the lookup does not know leaves the loop state as it was, without
    error. *)
Theorem plan_emitted_in_full :
  forall projects plan logo_dir w,
    forallb wf_project projects = true ->
    forallb wf_cat plan = true ->
    dir_ready logo_dir w = true ->
    exists out w' tbl,
      build_landscape_from_static projects plan logo_dir w = (Ok out, w')
      /\ indexes tbl projects
      /\ Forall2 (cat_matches logo_dir tbl) plan (firstn (List.length plan) out)
      /\ (forall sub s,
             sub_matches logo_dir tbl sub s ->
             forallb (fun n => negb (found tbl n)) (sub_refs sub) = true ->
             sub_items s = [])
      /\ (forall n acc w0,
             hashable n = true -> kfind n tbl = None ->
             item_step logo_dir tbl n acc w0 = (Ok acc, w0)).
Proof.
  intros projects plan logo_dir w Hps Hplan Hdir.
  destruct (static_total projects plan logo_dir w Hps Hplan Hdir)
    as (out & w' & E).
  pose proof (static_run _ _ _ _ _ _ E)
    as (tbl & planned & rest & _ & Hidx & Hcats & Hrest & Hout).
  exists out, w', tbl. split; [exact E |]. split; [exact Hidx |].
  split; [| split].
  - rewrite Hout, (Forall2_length Hcats), firstn_app, Nat.sub_diag.
    simpl. rewrite firstn_all, app_nil_r. exact Hcats.
  - apply sub_matches_all_miss.
  - intros n acc w0. apply item_step_miss.
Qed.

Lemma plan_emitted_in_full_witness :
  exists out w' tbl,
    build_landscape_from_static ex_static_projects ex_sparse_plan None
      quiet_world = (Ok out, w')
    /\ indexes tbl ex_static_projects
    /\ Forall2 (cat_matches None tbl) ex_sparse_plan
               (firstn (List.length ex_sparse_plan) out)
    /\ (forall sub s,
           sub_matches None tbl sub s ->
           forallb (fun n => negb (found tbl n)) (sub_refs sub) = true ->
           sub_items s = [])
    /\ (forall n acc w0,
           hashable n = true -> kfind n tbl = None ->
           item_step None tbl n acc w0 = (Ok acc, w0)).
Proof.
  apply (plan_emitted_in_full ex_static_projects ex_sparse_plan None
           quiet_world); reflexivity.
Defined.

Example sparse_plan_run :
  build_landscape_from_static ex_static_projects ex_sparse_plan None
    quiet_world = (Ok ex_sparse_out, quiet_world).
Proof. reflexivity. Qed.

(** ** Dicts with string keys *)

Section StringDicts.

Context {A : Type}.
Implicit Types (d : list (string * A)) (k : string).

Lemma sfind_none d k :
  sfind k d = None <-> existsb (String.eqb k) (map fst d) = false.
Proof.
  induction d as [| [k' a] rest IH]; simpl.
  - split; reflexivity.
  - rewrite (String.eqb_sym k k'). destruct (k' =? k)%string; simpl.
    + split; discriminate.
    + exact IH.
Qed.

Lemma sfind_app d1 d2 k :
  sfind k (d1 ++ d2)
  = match sfind k d1 with Some a => Some a | None => sfind k d2 end.
Proof.
  induction d1 as [| [k' a] rest IH]; simpl.
  - reflexivity.
  - destruct (k' =? k)%string; [reflexivity | exact IH].
Qed.

Lemma sfind_setdefault d k k' a :
  sfind k' (setdefault d k a)
  = match sfind k' d with
    | Some x => Some x
    | None => if (k =? k')%string
              then match sfind k d with Some _ => None | None => Some a end
              else None
    end.
Proof.
  unfold setdefault. destruct (sfind k d) as [x |] eqn:Hk.
  - destruct (sfind k' d) eqn:Hk'; [reflexivity |].
    destruct (k =? k')%string; reflexivity.
  - rewrite sfind_app. simpl. destruct (sfind k' d); reflexivity.
Qed.

Lemma keys_setdefault d k a :
  map fst (setdefault d k a)
  = if existsb (String.eqb k) (map fst d)
    then map fst d else map fst d ++ [k].
Proof.
  unfold setdefault. destruct (sfind k d) as [x |] eqn:Hk.
  - destruct (existsb (String.eqb k) (map fst d)) eqn:E; [reflexivity |].
    apply sfind_none in E. congruence.
  - rewrite map_app. apply sfind_none in Hk. rewrite Hk. reflexivity.
Qed.

Lemma sfind_supdate d k k' (f : A -> A) :
  sfind k' (supdate k f d)
  = if (k =? k')%string then option_map f (sfind k d) else sfind k' d.
Proof.
  induction d as [| [k0 a] rest IH]; simpl.
  - destruct (k =? k')%string; reflexivity.
  - destruct (k0 =? k)%string eqn:E0; simpl.
    + apply String.eqb_eq in E0. subst k0.
      destruct (k =? k')%string; reflexivity.
    + rewrite IH. destruct (k =? k')%string eqn:Ek; [| reflexivity].
      apply String.eqb_eq in Ek. subst k'. rewrite E0. reflexivity.
Qed.

Lemma keys_supdate d k (f : A -> A) :
  map fst (supdate k f d) = map fst d.
Proof.
  induction d as [| [k0 a] rest IH]; simpl; [reflexivity |].
  destruct (k0 =? k)%string; simpl; [reflexivity | rewrite IH; reflexivity].
Qed.

Lemma sfind_split d k a :
  sfind k d = Some a ->
  exists d1 d2,
    d = d1 ++ (k, a) :: d2
    /\ forall f, supdate k f d = d1 ++ (k, f a) :: d2.
Proof.
  induction d as [| [k0 a0] rest IH]; simpl; intros H.
  - discriminate H.
  - destruct (k0 =? k)%string eqn:E0.
    + apply String.eqb_eq in E0. subst k0. inversion H; subst.
      exists [], rest. split; [reflexivity |]. intros f. reflexivity.
    + destruct (IH H) as (d1 & d2 & -> & Hupd).
      exists ((k0, a0) :: d1), d2. split; [reflexivity |].
      intros f. simpl. rewrite Hupd. reflexivity.
Qed.

Lemma sfind_entry d k a :
  NoDup (map fst d) -> In (k, a) d -> sfind k d = Some a.
Proof.
  induction d as [| [k0 a0] rest IH]; simpl; intros Hnd Hin.
  - destruct Hin.
  - inversion Hnd as [| ? ? Hk0 Hrest]; subst.
    destruct Hin as [E | Hin].
    + inversion E; subst. rewrite String.eqb_refl. reflexivity.
    + destruct (k0 =? k)%string eqn:E0.
      * apply String.eqb_eq in E0. subst k0. exfalso. apply Hk0.
        apply (in_map fst) in Hin. exact Hin.
      * apply IH; assumption.
Qed.

End StringDicts.

Lemma existsb_eqb_in (k : string) (l : list string) :
  existsb (String.eqb k) l = true <-> In k l.
Proof.
  rewrite existsb_exists. split.
  - intros (x & Hin & E). apply String.eqb_eq in E. subst x. exact Hin.
  - intros Hin. exists k. split; [exact Hin | apply String.eqb_refl].
Qed.

Lemma first_seen_nodup (l : list string) : NoDup (first_seen String.eqb l).
Proof.
  induction l as [| x rest IH] using rev_ind.
  - constructor.
  - rewrite first_seen_snoc.
    destruct (existsb (String.eqb x) (first_seen String.eqb rest)) eqn:E;
      [exact IH |].
    apply NoDup_app; [exact IH | constructor; [intros [] | constructor] |].
    intros y Hy [<- | []]. apply existsb_eqb_in in Hy. congruence.
Qed.

Lemma sfind_upsert {A : Type} (d : list (string * A)) (k k' : string)
  (a : A) (f : A -> A) :
  sfind k' (supdate k f (setdefault d k a))
  = if (k =? k')%string
    then Some (f (match sfind k d with Some x => x | None => a end))
    else sfind k' d.
Proof.
  rewrite sfind_supdate. destruct (k =? k')%string eqn:E.
  - rewrite sfind_setdefault, String.eqb_refl.
    destruct (sfind k d); reflexivity.
  - rewrite sfind_setdefault, E. destruct (sfind k' d); reflexivity.
Qed.

(** ** Dynamic mode: the loop *)

Lemma dynamic_step_inv (logo_dir : option string) (p : value)
  (categories categories' : list (string * open_category)) w w' :
  dynamic_step logo_dir p categories w = (Ok categories', w') ->
  exists c s it,
    project_labels p = (c, s)
    /\ build_item logo_dir p w = (Ok it, w')
    /\ categories'
       = supdate c (append_item s it)
           (supdate c (open_sub s)
              (setdefault categories c (mkOpen c []))).
Proof.
  unfold dynamic_step. intros H. peel H. peel Hm. peel H. peel Hm0.
  destruct a0 as [c s]. peel H. peel H.
  exists c, s, a0. split; [| split; [exact Hm1 | reflexivity]].
  unfold project_labels. rewrite Hm. simpl. rewrite Hm0. reflexivity.
Qed.

Lemma in_sub_in_cat (c s : string) (p : value) :
  in_cat c p = false -> in_sub c s p = false.
Proof. unfold in_sub. intros ->. reflexivity. Qed.

Lemma filter_in_sub_nil (c s : string) (l : list value) :
  filter (in_cat c) l = [] -> filter (in_sub c s) l = [].
Proof.
  induction l as [| p rest IH]; simpl; [reflexivity |].
  destruct (in_cat c p) eqn:E; [discriminate |].
  rewrite (in_sub_in_cat _ s _ E). exact IH.
Qed.

Lemma filter_snoc_out {A : Type} (f : A -> bool) (l : list A) (x : A) :
  f x = false -> filter f (l ++ [x]) = filter f l.
Proof. intros H. rewrite filter_snoc, H, app_nil_r. reflexivity. Qed.

Lemma filter_snoc_in {A : Type} (f : A -> bool) (l : list A) (x : A) :
  f x = true -> filter f (l ++ [x]) = filter f l ++ [x].
Proof. intros H. rewrite filter_snoc, H. reflexivity. Qed.

Lemma grouped_step (logo_dir : option string) (done : list value) (p : value)
  (categories categories' : list (string * open_category)) w w' :
  grouped logo_dir done categories ->
  dynamic_step logo_dir p categories w = (Ok categories', w') ->
  grouped logo_dir (done ++ [p]) categories'.
Proof.
  intros (Hkeys & Hnone & Hsome) H.
  apply dynamic_step_inv in H as (c & s & it & Hlab & Hit & ->).
  assert (Hc : cat_label p = c) by (unfold cat_label; rewrite Hlab; reflexivity).
  assert (Hs : sub_label p = s) by (unfold sub_label; rewrite Hlab; reflexivity).
  assert (Hin : in_cat c p = true)
    by (unfold in_cat; rewrite Hc; apply String.eqb_refl).
  assert (Hout : forall c', (c =? c')%string = false -> in_cat c' p = false)
    by (intros c' E; unfold in_cat; rewrite Hc; exact E).
  assert (Hfind : forall c',
             sfind c' (supdate c (append_item s it)
                         (supdate c (open_sub s)
                            (setdefault categories c (mkOpen c []))))
             = if (c =? c')%string
               then Some (append_item s it
                            (open_sub s
                               (match sfind c categories with
                                | Some x => x
                                | None => mkOpen c []
                                end)))
               else sfind c' categories).
  { intros c'. rewrite sfind_supdate, !sfind_upsert, String.eqb_refl.
    destruct (c =? c')%string; reflexivity. }
  unfold grouped. split; [| split].
  - rewrite !keys_supdate, keys_setdefault, map_app. cbn [map].
    rewrite first_seen_snoc, Hc, <- Hkeys. reflexivity.
  - intros c'. rewrite Hfind. destruct (c =? c')%string eqn:E; [discriminate |].
    intros Hc'. rewrite filter_snoc_out by (apply Hout; exact E).
    apply Hnone. exact Hc'.
  - intros c' oc'. rewrite Hfind. destruct (c =? c')%string eqn:E.
    + apply String.eqb_eq in E. subst c'. intros Hoc'. inversion Hoc'; clear Hoc'.
      set (oc0 := match sfind c categories with
                  | Some x => x
                  | None => mkOpen c []
                  end).
      assert (Hoc0 : open_name oc0 = c
                   /\ map fst (open_subs oc0)
                      = first_seen String.eqb
                          (map sub_label (filter (in_cat c) done))
                   /\ (forall s', sfind s' (open_subs oc0) = None ->
                                  filter (in_sub c s') done = [])
                   /\ (forall s' sub,
                          sfind s' (open_subs oc0) = Some sub ->
                          sub_name sub = VStr s'
                          /\ Forall2 (fun p it => built_from logo_dir p it)
                                     (filter (in_sub c s') done)
                                     (sub_items sub))).
      { unfold oc0. destruct (sfind c categories) as [x |] eqn:Ex.
        - apply Hsome. exact Ex.
        - pose proof (Hnone c Ex) as Hempty. simpl. rewrite Hempty.
          repeat split; try discriminate.
          intros s' _. apply filter_in_sub_nil. exact Hempty. }
      destruct Hoc0 as (Hname & Hsubkeys & Hsubnone & Hsubsome).
      assert (Hsubfind : forall s',
                 sfind s' (open_subs (append_item s it (open_sub s oc0)))
                 = if (s =? s')%string
                   then Some (mkSub
                                (sub_name
                                   (match sfind s (open_subs oc0) with
                                    | Some x => x
                                    | None => mkSub (VStr s) []
                                    end))
                                (sub_items
                                   (match sfind s (open_subs oc0) with
                                    | Some x => x
                                    | None => mkSub (VStr s) []
                                    end) ++ [it]))
                   else sfind s' (open_subs oc0)).
      { intros s'. simpl. rewrite sfind_upsert. reflexivity. }
      split; [exact Hname |]. split; [| split].
      * simpl. rewrite keys_supdate, keys_setdefault.
        rewrite (filter_snoc_in _ _ _ Hin), map_app. cbn [map].
        rewrite first_seen_snoc, Hs, <- Hsubkeys. reflexivity.
      * intros s'. rewrite Hsubfind.
        destruct (s =? s')%string eqn:Es; [discriminate |].
        intros Hs'. rewrite filter_snoc_out.
        -- apply Hsubnone. exact Hs'.
        -- unfold in_sub. rewrite Hs, Es. apply andb_false_r.
      * intros s' sub. rewrite Hsubfind.
        destruct (s =? s')%string eqn:Es.
        -- apply String.eqb_eq in Es. subst s'.
           intros Hsub. inversion Hsub; clear Hsub. simpl.
           rewrite filter_snoc_in
             by (unfold in_sub; rewrite Hin, Hs; apply String.eqb_refl).
           destruct (sfind s (open_subs oc0)) as [sub0 |] eqn:E0.
           ++ destruct (Hsubsome s sub0 E0) as [Hn Hitems].
              split; [exact Hn |].
              apply Forall2_app; [exact Hitems |].
              constructor; [do 2 eexists; exact Hit | constructor].
           ++ simpl. split; [reflexivity |].
              rewrite (Hsubnone s E0). simpl.
              constructor; [do 2 eexists; exact Hit | constructor].
        -- intros Hsub. rewrite filter_snoc_out.
           ++ apply Hsubsome. exact Hsub.
           ++ unfold in_sub. rewrite Hs, Es. apply andb_false_r.
    + intros Hoc'. destruct (Hsome c' oc' Hoc') as (Hn & Hk & Hno & Hso).
      pose proof (Hout c' E) as Hp.
      split; [exact Hn |]. split; [| split].
      * rewrite (filter_snoc_out _ _ _ Hp). exact Hk.
      * intros s' Hs'.
        rewrite (filter_snoc_out _ _ _ (in_sub_in_cat _ s' _ Hp)).
        apply Hno. exact Hs'.
      * intros s' sub Hsub.
        rewrite (filter_snoc_out _ _ _ (in_sub_in_cat _ s' _ Hp)).
        apply Hso. exact Hsub.
Qed.

Lemma grouped_loop (logo_dir : option string) (projects : list value)
  (categories : list (string * open_category)) w w' :
  for_each (dynamic_step logo_dir) projects [] w = (Ok categories, w') ->
  grouped logo_dir projects categories.
Proof.
  intros H.
  apply (for_each_invariant (dynamic_step logo_dir) (grouped logo_dir))
    with (done := []) in H; [exact H | | ].
  - intros done p s s' w0 w0' HI Hstep. eapply grouped_step; eassumption.
  - unfold grouped. simpl. split; [reflexivity |].
    split; [reflexivity | discriminate].
Qed.

Lemma dynamic_run (projects : list value) (logo_dir : option string)
  (out : list category) w w' :
  build_landscape_from_dynamic projects logo_dir w = (Ok out, w') ->
  exists categories w1,
    for_each (dynamic_step logo_dir) projects [] w1 = (Ok categories, w')
    /\ out = map (fun kv => close_category (snd kv)) categories.
Proof.
  unfold build_landscape_from_dynamic. intros H. peel H. peel H. peel H.
  eauto.
Qed.

Lemma grouped_shape (logo_dir : option string) (projects : list value)
  (categories : list (string * open_category)) :
  grouped logo_dir projects categories ->
  dynamic_shape logo_dir projects
    (map (fun kv => close_category (snd kv)) categories).
Proof.
  intros (Hkeys & _ & Hsome).
  assert (Hnd : NoDup (map fst categories))
    by (rewrite Hkeys; apply first_seen_nodup).
  assert (Hentry : forall k oc, In (k, oc) categories ->
                                sfind k categories = Some oc)
    by (intros k oc; apply sfind_entry; exact Hnd).
  unfold dynamic_shape. split.
  - rewrite <- Hkeys, !map_map. apply map_ext_in.
    intros [k oc] Hin. simpl.
    destruct (Hsome k oc (Hentry k oc Hin)) as (-> & _). reflexivity.
  - apply Forall_map. apply Forall_forall. intros [k oc] Hin. simpl.
    destruct (Hsome k oc (Hentry k oc Hin)) as (Hn & Hsubkeys & _ & Hsubs).
    assert (Hsnd : NoDup (map fst (open_subs oc)))
      by (rewrite Hsubkeys; apply first_seen_nodup).
    exists k. split; [rewrite Hn; reflexivity |]. split.
    + rewrite <- Hsubkeys, !map_map. apply map_ext_in.
      intros [sk sub] Hsin. simpl.
      destruct (Hsubs sk sub (sfind_entry _ _ _ Hsnd Hsin)) as [-> _].
      reflexivity.
    + apply Forall_map. apply Forall_forall. intros [sk sub] Hsin. simpl.
      exists sk. apply Hsubs. apply sfind_entry; assumption.
Qed.

(** C5.  A document returned by the dynamic builder lists the categories in
    the order in which their labels first occur in the input; in each
    category the subcategories in the order in which their labels first
    occur among the projects of that category; and in each subcategory the
    items of its projects in load order. *)
Theorem dynamic_order :
  forall projects logo_dir out w w',
    build_landscape_from_dynamic projects logo_dir w = (Ok out, w') ->
    dynamic_shape logo_dir projects out.
Proof.
  intros projects logo_dir out w w' H.
  apply dynamic_run in H as (categories & w1 & Hloop & ->).
  apply grouped_shape. eapply grouped_loop. exact Hloop.
Qed.

Lemma dynamic_order_witness :
  build_landscape_from_dynamic ex_unsorted None quiet_world
  = (Ok ex_unsorted_out, quiet_world)
  /\ dynamic_shape None ex_unsorted ex_unsorted_out.
Proof.
  split; [reflexivity |].
  apply (dynamic_order ex_unsorted None ex_unsorted_out quiet_world
           quiet_world).
  reflexivity.
Defined.


(** ** Every project once: dynamic mode *)

Lemma flat_map_map {A B C : Type} (f : A -> B) (g : B -> list C)
  (l : list A) :
  flat_map g (map f l) = flat_map (fun x => g (f x)) l.
Proof.
  induction l as [| x rest IH]; simpl; [reflexivity | rewrite IH; reflexivity].
Qed.

Lemma all_items_close (categories : list (string * open_category)) :
  all_items (map (fun kv => close_category (snd kv)) categories)
  = open_items categories.
Proof.
  unfold all_items, open_items. rewrite flat_map_map. simpl.
  apply flat_map_ext. intros [k oc]. simpl. apply flat_map_map.
Qed.

Lemma open_items_setdefault (categories : list (string * open_category))
  (c : string) :
  open_items (setdefault categories c (mkOpen c [])) = open_items categories.
Proof.
  unfold setdefault. destruct (sfind c categories); [reflexivity |].
  unfold open_items. rewrite flat_map_app. simpl. apply app_nil_r.
Qed.

Lemma open_items_open_sub (categories : list (string * open_category))
  (c s : string) :
  open_items (supdate c (open_sub s) categories) = open_items categories.
Proof.
  unfold open_items. induction categories as [| [k oc] rest IH]; simpl.
  - reflexivity.
  - destruct (k =? c)%string; simpl.
    + f_equal. unfold setdefault.
      destruct (sfind s (open_subs oc)); [reflexivity |].
      rewrite flat_map_app. simpl. apply app_nil_r.
    + rewrite IH. reflexivity.
Qed.

Lemma open_items_append (categories : list (string * open_category))
  (c s : string) (it : item) (oc : open_category) (sub : subcategory) :
  sfind c categories = Some oc ->
  sfind s (open_subs oc) = Some sub ->
  exists l1 l2,
    open_items categories = l1 ++ l2
    /\ open_items (supdate c (append_item s it) categories) = l1 ++ it :: l2.
Proof.
  intros Hc Hs.
  destruct (sfind_split _ _ _ Hc) as (d1 & d2 & -> & Hupd).
  destruct (sfind_split _ _ _ Hs) as (e1 & e2 & He & Hsupd).
  rewrite Hupd. unfold open_items. rewrite !flat_map_app. simpl.
  rewrite Hsupd, He, !flat_map_app. simpl.
  set (f := fun kv : string * open_category =>
              flat_map (fun ks => sub_items (snd ks)) (open_subs (snd kv))).
  set (g := fun ks : string * subcategory => sub_items (snd ks)).
  exists (flat_map f d1 ++ flat_map g e1 ++ sub_items sub),
         (flat_map g e2 ++ flat_map f d2).
  split; repeat rewrite <- app_assoc; reflexivity.
Qed.

Lemma one_item_each_step (logo_dir : option string) (done : list value)
  (p : value) (categories categories' : list (string * open_category)) w w' :
  one_item_each logo_dir done (open_items categories) ->
  dynamic_step logo_dir p categories w = (Ok categories', w') ->
  one_item_each logo_dir (done ++ [p]) (open_items categories').
Proof.
  intros (arranged & Hperm & Hitems) H.
  apply dynamic_step_inv in H as (c & s & it & _ & Hit & ->).
  set (st2 := supdate c (open_sub s) (setdefault categories c (mkOpen c []))).
  assert (Hc : sfind c st2
               = Some (open_sub s (match sfind c categories with
                                   | Some x => x
                                   | None => mkOpen c []
                                   end))).
  { unfold st2. rewrite sfind_upsert, String.eqb_refl. reflexivity. }
  assert (Hs : exists sub,
             sfind s (open_subs (open_sub s (match sfind c categories with
                                             | Some x => x
                                             | None => mkOpen c []
                                             end))) = Some sub).
  { simpl. rewrite sfind_setdefault, String.eqb_refl.
    destruct (sfind s _); eauto. }
  destruct Hs as (sub & Hs).
  destruct (open_items_append st2 c s it _ _ Hc Hs) as (l1 & l2 & E & ->).
  unfold st2 in E. rewrite open_items_open_sub, open_items_setdefault in E.
  rewrite E in Hitems.
  apply Forall2_app_inv_r in Hitems as (a1 & a2 & H1 & H2 & ->).
  exists (a1 ++ p :: a2). split.
  - apply Permutation_trans with (p :: done).
    + apply Permutation_sym. apply Permutation_cons_append.
    + apply Permutation_cons_app. exact Hperm.
  - apply Forall2_app; [exact H1 |].
    constructor; [do 2 eexists; exact Hit | exact H2].
Qed.

Lemma dynamic_one_item_each (projects : list value)
  (logo_dir : option string) (out : list category) w w' :
  build_landscape_from_dynamic projects logo_dir w = (Ok out, w') ->
  one_item_each logo_dir projects (all_items out).
Proof.
  intros H. apply dynamic_run in H as (categories & w1 & Hloop & ->).
  rewrite all_items_close.
  apply (for_each_invariant (dynamic_step logo_dir)
           (fun done st => one_item_each logo_dir done (open_items st)))
    with (done := []) in Hloop; [exact Hloop | | ].
  - intros done p s s' w0 w0' HI Hstep. eapply one_item_each_step; eassumption.
  - exists []. split; constructor.
Qed.

(** ** Every project once: static mode with distinct names *)

Lemma distinct_keys_snoc_inv (ks : list value) (k : value) :
  distinct_keys (ks ++ [k]) = true ->
  distinct_keys ks = true /\ kmem k ks = false.
Proof.
  induction ks as [| x rest IH]; simpl; intros H.
  - split; reflexivity.
  - apply andb_true_iff in H as [Hx Hrest].
    apply negb_true_iff in Hx. rewrite kmem_app in Hx.
    apply orb_false_iff in Hx as [Hx Hxk]. simpl in Hxk.
    rewrite orb_false_r in Hxk.
    destruct (IH Hrest) as [Hd Hk]. split.
    + rewrite Hx, Hd. reflexivity.
    + unfold kmem in *. simpl. rewrite (key_eqb_sym k x), Hxk, Hk. reflexivity.
Qed.

Lemma kinsert_fresh (k v : value) (d : table) :
  kmem k (map fst d) = false -> kinsert k v d = d ++ [(k, v)].
Proof.
  induction d as [| [k' v'] rest IH]; simpl; intros H.
  - reflexivity.
  - unfold kmem in H. simpl in H. apply orb_false_iff in H as [Hk Hrest].
    rewrite (key_eqb_sym k' k), Hk. rewrite IH by exact Hrest. reflexivity.
Qed.

(** With distinct names the lookup lists the projects themselves, in load
    order. *)
Lemma index_loop_distinct (projects : list value) (tbl : table) w w' :
  for_each index_step projects [] w = (Ok tbl, w') ->
  distinct_keys (map name_of projects) = true ->
  tbl = map (fun p => (name_of p, p)) projects.
Proof.
  intros H.
  refine (for_each_invariant index_step
            (fun done d =>
               distinct_keys (map name_of done) = true ->
               d = map (fun p => (name_of p, p)) done)
            _ projects [] [] tbl w w' (fun _ => eq_refl) H).
  clear. intros done p d d' w w' IH H Hd.
  apply index_step_inv in H as (_ & _ & ->).
  rewrite map_app in Hd. apply distinct_keys_snoc_inv in Hd as [Hd Hp].
  rewrite (IH Hd). rewrite kinsert_fresh.
  - rewrite map_app. reflexivity.
  - rewrite map_map. simpl. exact Hp.
Qed.















(** * Further properties of the code *)

(** ** The fields of an item *)

(** The first repository, when the project has any. *)
Lemma repos_cases (repos : value) :
  truthy repos = true ->
  (exists r others, repos = VList (VDict r :: others))
  \/ (exists e,
         forall (B : Type) (k : value -> result B),
           rbind (py_index0 repos)
                 (fun first => rbind (py_get first "url" VNone) k)
           = Raise e).
Proof.
  destruct repos as [| b | n | s | l | d]; simpl; intros H; try discriminate H.
  - right. eexists. reflexivity.
  - right. eexists. reflexivity.
  - right. destruct s; [discriminate H | eexists; reflexivity].
  - destruct l as [| x rest]; [discriminate H |].
    destruct x; try (right; eexists; reflexivity).
    left. eauto.
  - right. destruct d; [discriminate H | eexists; reflexivity].
Qed.

Lemma item_fields_layout (d : list (string * value)) (fields : item) :
  item_fields (VDict d) = Ok fields ->
  exists repo_part,
    fields
    = [("name", field d "name"); ("description", field d "summary");
       ("homepage_url", field d "url")]
      ++ (if truthy (field d "state")
          then [("project", field d "state")] else [])
      ++ repo_part
    /\ ((truthy (field d "github_repos") = false /\ repo_part = [])
        \/ (exists r others,
               field d "github_repos" = VList (VDict r :: others)
               /\ repo_part = if truthy (field r "url")
                              then [("repo_url", field r "url")] else [])).
Proof.
  unfold item_fields. simpl py_get. cbn [rbind]. fold (field d "name").
  fold (field d "summary"). fold (field d "url"). fold (field d "state").
  fold (field d "github_repos").
  destruct (truthy (field d "github_repos")) eqn:Hrepos.
  - rewrite Hrepos.
    destruct (repos_cases _ Hrepos) as [(r & others & E) | (e & E)].
    + rewrite E. simpl py_index0. cbn [rbind]. simpl py_get.
      fold (field r "url"). intros H. inversion H; clear H.
      exists (if truthy (field r "url")
              then [("repo_url", field r "url")] else []).
      split; [| right; exists r, others; split; reflexivity].
      destruct (truthy (field d "state")), (truthy (field r "url"));
        reflexivity.
    + intros H. rewrite E in H. discriminate H.
  - simpl. intros H. inversion H; clear H. exists [].
    split; [| left; split; reflexivity].
    destruct (truthy (field d "state")); reflexivity.
Qed.

Lemma dict_set_fresh (d : list (string * value)) (k : string) (v : value) :
  assoc k d = None -> dict_set d k v = d ++ [(k, v)].
Proof.
  induction d as [| [k' v'] rest IH]; simpl; intros H.
  - reflexivity.
  - destruct (k' =? k)%string; [discriminate H |].
    rewrite IH by exact H. reflexivity.
Qed.

Lemma build_item_layout (logo_dir : option string)
  (d : list (string * value)) (it : item) w w' :
  build_item logo_dir (VDict d) w = (Ok it, w') ->
  exists repo_part logo,
    it = [("name", field d "name"); ("description", field d "summary");
          ("homepage_url", field d "url")]
         ++ (if truthy (field d "state")
             then [("project", field d "state")] else [])
         ++ repo_part ++ [("logo", logo)]
    /\ resolve_logo logo_dir (field d "logo") w = (Ok logo, w')
    /\ ((truthy (field d "github_repos") = false /\ repo_part = [])
        \/ (exists r others,
               field d "github_repos" = VList (VDict r :: others)
               /\ repo_part = if truthy (field r "url")
                              then [("repo_url", field r "url")] else [])).
Proof.
  intros H.
  apply build_item_inv in H as (fields & logo_url & logo & Hf & Hl & Hr & ->).
  simpl in Hl. inversion Hl; subst logo_url. fold (field d "logo") in Hr.
  destruct (item_fields_layout _ _ Hf) as (repo_part & -> & Hrepo).
  exists repo_part, logo. split; [| split; [exact Hr | exact Hrepo]].
  rewrite dict_set_fresh.
  - repeat rewrite <- app_assoc. reflexivity.
  - destruct Hrepo as [[_ ->] | (r & others & _ & ->)];
      destruct (truthy (field d "state")); try destruct (truthy (field r "url"));
      reflexivity.
Qed.

(** X1.  The keys of an item and their order: name, description and
    homepage_url, then project exactly when the state is true in the Python
    sense, then possibly repo_url, and last the logo, which is always
    there. *)
Theorem item_layout :
  forall logo_dir d it w w',
    build_item logo_dir (VDict d) w = (Ok it, w') ->
    exists repo_part logo,
      it = [("name", field d "name"); ("description", field d "summary");
            ("homepage_url", field d "url")]
           ++ (if truthy (field d "state")
               then [("project", field d "state")] else [])
           ++ repo_part ++ [("logo", logo)]
      /\ (repo_part = []
          \/ exists u, repo_part = [("repo_url", u)] /\ truthy u = true).
Proof.
  intros logo_dir d it w w' H.
  apply build_item_layout in H as (repo_part & logo & -> & _ & Hrepo).
  exists repo_part, logo. split; [reflexivity |].
  destruct Hrepo as [[_ ->] | (r & others & _ & ->)]; [left; reflexivity |].
  destruct (truthy (field r "url")) eqn:E; [right; eauto | left; reflexivity].
Qed.

Lemma item_layout_witness :
  exists repo_part logo,
    ex_repos_item
    = [("name", VStr "R"); ("description", VNone); ("homepage_url", VNone)]
      ++ [("project", VStr "Incubating")] ++ repo_part ++ [("logo", logo)]
    /\ (repo_part = []
        \/ exists u, repo_part = [("repo_url", u)] /\ truthy u = true).
Proof.
  apply (item_layout None
           [("name", VStr "R"); ("state", VStr "Incubating");
            ("github_repos",
             VList [VDict [("url", VStr "https://github.com/org/first")];
                    VDict [("url", VStr "https://github.com/org/second")]])]
           ex_repos_item quiet_world quiet_world).
  reflexivity.
Defined.

(** X2.  The repo_url of an item is the url of the first repository and of
    no other: it is written when that url is true in the Python sense and
    left out otherwise, whatever the later repositories are; without
    repositories there is no repo_url. *)
Theorem repo_url_is_first :
  forall logo_dir d it w w',
    build_item logo_dir (VDict d) w = (Ok it, w') ->
    (forall r others,
        field d "github_repos" = VList (VDict r :: others) ->
        assoc "repo_url" it
        = if truthy (field r "url") then Some (field r "url") else None)
    /\ (truthy (field d "github_repos") = false ->
        assoc "repo_url" it = None).
Proof.
  intros logo_dir d it w w' H.
  apply build_item_layout in H as (repo_part & logo & -> & _ & Hrepo).
  split.
  - intros r others Hr.
    destruct Hrepo as [[Hfalse _] | (r' & others' & Hr' & ->)].
    + rewrite Hr in Hfalse. discriminate Hfalse.
    + rewrite Hr in Hr'. inversion Hr'; subst r' others'.
      destruct (truthy (field d "state")), (truthy (field r "url"));
        reflexivity.
  - intros Hfalse.
    destruct Hrepo as [[_ ->] | (r' & others' & Hr' & _)].
    + destruct (truthy (field d "state")); reflexivity.
    + rewrite Hr' in Hfalse. discriminate Hfalse.
Qed.

Lemma repo_url_is_first_witness :
  assoc "repo_url" ex_repos_item = Some (VStr "https://github.com/org/first").
Proof.
  destruct (repo_url_is_first None
              [("name", VStr "R"); ("state", VStr "Incubating");
               ("github_repos",
                VList [VDict [("url", VStr "https://github.com/org/first")];
                       VDict [("url", VStr "https://github.com/org/second")]])]
              ex_repos_item quiet_world quiet_world eq_refl) as [Hfirst _].
  exact (Hfirst _ _ eq_refl).
Defined.

Lemma item_fields_dict (p : value) (fields : item) :
  item_fields p = Ok fields -> exists d, p = VDict d.
Proof. destruct p; try discriminate; eauto. Qed.

Lemma build_item_of_fields (logo_dir : option string) (p : value)
  (fields : item) w :
  item_fields p = Ok fields ->
  exists it w', build_item logo_dir p w = (Ok it, w').
Proof.
  intros Hf. destruct (item_fields_dict _ _ Hf) as (d & ->).
  unfold build_item. rewrite Hf.
  erewrite bind_step by reflexivity.
  erewrite bind_step by reflexivity.
  destruct (resolve_logo_returns logo_dir
              (match assoc "logo" d with Some v => v | None => VNone end) w)
    as (r & w' & E & _).
  erewrite bind_step by exact E. eexists. eexists. reflexivity.
Qed.

Lemma item_fields_returns_iff (p : value) :
  (exists fields, item_fields p = Ok fields)
  <-> (exists d,
          p = VDict d
          /\ (truthy (field d "github_repos") = false
              \/ exists r others,
                  field d "github_repos" = VList (VDict r :: others))).
Proof.
  split.
  - intros (fields & Hf). destruct (item_fields_dict _ _ Hf) as (d & ->).
    exists d. split; [reflexivity |].
    destruct (item_fields_layout _ _ Hf) as (repo_part & _ & Hrepo).
    destruct Hrepo as [[Hfalse _] | (r & others & Hr & _)]; [left | right];
      eauto.
  - intros (d & -> & Hrepos).
    unfold item_fields. simpl py_get. cbn [rbind].
    fold (field d "github_repos").
    destruct Hrepos as [Hfalse | (r & others & Hr)].
    + rewrite Hfalse. simpl. eauto.
    + rewrite Hr. simpl. eauto.
Qed.

(** X3.  [build_item] returns normally exactly for a project that is a dict
    whose github_repos is missing, false in the Python sense, or a list
    that starts with a dict; for anything else, such as a list of URL
    strings, it raises. *)
Theorem build_item_returns_iff :
  forall logo_dir p w,
    (exists it w', build_item logo_dir p w = (Ok it, w'))
    <-> (exists d,
            p = VDict d
            /\ (truthy (field d "github_repos") = false
                \/ exists r others,
                    field d "github_repos" = VList (VDict r :: others))).
Proof.
  intros logo_dir p w. rewrite <- item_fields_returns_iff. split.
  - intros (it & w' & H).
    apply build_item_inv in H as (fields & _ & _ & Hf & _). eauto.
  - intros (fields & Hf). eapply build_item_of_fields. exact Hf.
Qed.

(** ** What a download does to the world *)




(** ** File names *)

Lemma split_on_sep_free (sep : ascii) (s : string) :
  Forall (fun piece => contains sep piece = false) (split_on sep s).
Proof.
  induction s as [| x rest IH]; simpl.
  - constructor; [reflexivity | constructor].
  - destruct (Ascii.eqb x sep) eqn:Ex.
    + constructor; [reflexivity | exact IH].
    + destruct (split_on sep rest) as [| w ws].
      * constructor; [| constructor]. unfold contains. simpl.
        rewrite Ascii.eqb_sym, Ex. reflexivity.
      * inversion IH; subst. constructor; [| assumption].
        unfold contains in *. simpl. rewrite Ascii.eqb_sym, Ex. assumption.
Qed.

Lemma Forall_last {A : Type} (P : A -> Prop) (l : list A) (d : A) :
  P d -> Forall P l -> P (last l d).
Proof.
  intros Hd H. induction H as [| x l Hx _ IH]; [exact Hd |].
  destruct l; [exact Hx | exact IH].
Qed.

Lemma Forall_hd {A : Type} (P : A -> Prop) (l : list A) (d : A) :
  P d -> Forall P l -> P (hd d l).
Proof. intros Hd H. destruct H; assumption. Qed.

Lemma file_name_plain (url : string) :
  contains "/" (file_name_of url) = false
  /\ contains "?" (file_name_of url) = false.
Proof.
  unfold file_name_of.
  set (segment := last (split_on "/" url) EmptyString).
  assert (Hseg : contains "/" segment = false).
  { apply (Forall_last (fun piece => contains "/" piece = false));
      [reflexivity | apply split_on_sep_free]. }
  split.
  - apply (Forall_hd (fun piece => contains "/" piece = false));
      [reflexivity | apply split_on_pieces; exact Hseg].
  - apply (Forall_hd (fun piece => contains "?" piece = false));
      [reflexivity | apply split_on_sep_free].
Qed.



(** ** Logos of a document built with a logo directory *)

Lemma built_from_local (dir : string) (p : value) (it : item) :
  built_from (Some dir) p it -> local_logo it.
Proof.
  intros (w & w' & H).
  apply build_item_inv in H as (fields & logo_url & logo & _ & _ & Hr & ->).
  unfold local_logo. rewrite assoc_dict_set_same.
  unfold resolve_logo in Hr. destruct (truthy logo_url).
  - peel Hr. peel Hr.
    destruct (download_logo_returns logo_url dir w) as (s0 & wd & E & Hs).
    rewrite E in Hm. inversion Hm; subst s0 wd.
    exists a. split; [reflexivity |].
    destruct Hs as [-> | (u & _ & ->)];
      [split; reflexivity | apply file_name_plain].
  - peel Hr. exists placeholder. repeat split.
Qed.

Lemma dynamic_items_built (projects : list value) (logo_dir : option string)
  (out : list category) w w' :
  build_landscape_from_dynamic projects logo_dir w = (Ok out, w') ->
  Forall (fun it => exists p, In p projects /\ built_from logo_dir p it)
         (all_items out).
Proof.
  intros H. apply dynamic_one_item_each in H as (arranged & Hperm & Hitems).
  refine (Forall2_Forall_r _ _ _ _ _ Hitems).
  intros p it Hin Hit. exists p. split; [| exact Hit].
  eapply Permutation_in; [apply Permutation_sym; exact Hperm | exact Hin].
Qed.

(** X6.  A document built with a logo directory, in either mode, refers to
    no remote logo: the logo of every item is the placeholder or the plain
    name of a downloaded file, without slash or query string. *)
Theorem logos_are_local :
  forall projects plan dir out w w',
    build_landscape_from_static projects plan (Some dir) w = (Ok out, w')
    \/ build_landscape_from_dynamic projects (Some dir) w = (Ok out, w') ->
    Forall local_logo (all_items out).
Proof.
  intros projects plan dir out w w' [H | H].
  - apply static_items_from_last in H.
    eapply Forall_impl; [| exact H].
    intros it (n & p & _ & _ & Hit). eapply built_from_local. exact Hit.
  - apply dynamic_items_built in H.
    eapply Forall_impl; [| exact H].
    intros it (p & _ & Hit). eapply built_from_local. exact Hit.
Qed.

Lemma logos_are_local_witness :
  build_landscape_from_dynamic [ex_logo_project] (Some "logos")
    ex_serving_world = (Ok ex_logo_doc, ex_served_world)
  /\ Forall local_logo (all_items ex_logo_doc).
Proof.
  split; [reflexivity |].
  apply (logos_are_local [ex_logo_project] [] "logos" ex_logo_doc
           ex_serving_world ex_served_world).
  right. reflexivity.
Defined.

(** ** Building without a logo directory *)

Lemma world_free_ret {A : Type} (a : A) : world_free (ret a).
Proof. exists (Ok a). reflexivity. Qed.

Lemma world_free_lift {A : Type} (r : result A) : world_free (lift r).
Proof. exists r. reflexivity. Qed.

Lemma world_free_bind {A B : Type} (m : M A) (k : A -> M B) :
  world_free m -> (forall a, world_free (k a)) -> world_free (bind m k).
Proof.
  intros (r & Hm) Hk. destruct r as [a | e].
  - destruct (Hk a) as (rb & Hb). exists rb. intros w.
    unfold bind. rewrite Hm. apply Hb.
  - exists (Raise e). intros w. unfold bind. rewrite Hm. reflexivity.
Qed.

Lemma world_free_for_each {X S : Type} (body : X -> S -> M S) (xs : list X) :
  (forall x s, world_free (body x s)) ->
  forall s, world_free (for_each body xs s).
Proof.
  intros Hbody. induction xs as [| x rest IH]; intros s; simpl.
  - apply world_free_ret.
  - apply world_free_bind; [apply Hbody | exact IH].
Qed.

Lemma world_free_build_item (p : value) : world_free (build_item None p).
Proof.
  unfold build_item.
  apply world_free_bind; [apply world_free_lift | intros fields].
  apply world_free_bind; [apply world_free_lift | intros logo_url].
  apply world_free_bind; [| intros logo; apply world_free_ret].
  unfold resolve_logo. destruct (truthy logo_url); apply world_free_ret.
Qed.

Lemma world_free_static (projects plan : list value) :
  world_free (build_landscape_from_static projects plan None).
Proof.
  unfold build_landscape_from_static.
  apply world_free_bind.
  { apply world_free_for_each. intros p d. unfold index_step.
    apply world_free_bind; [apply world_free_lift | intros name].
    destruct (hashable name); [apply world_free_ret | apply world_free_lift]. }
  intros tbl. apply world_free_bind; [apply world_free_ret | intros _].
  apply world_free_bind.
  { apply world_free_for_each. intros cat [cats assigned]. unfold cat_step.
    apply world_free_bind; [apply world_free_lift | intros name].
    apply world_free_bind; [apply world_free_lift | intros subs_obj].
    apply world_free_bind; [apply world_free_lift | intros subs].
    apply world_free_bind; [| intros [new_subs assigned']; apply world_free_ret].
    apply world_free_for_each. intros sub [subs' assigned']. unfold sub_step.
    apply world_free_bind; [apply world_free_lift | intros sname].
    apply world_free_bind; [apply world_free_lift | intros refs].
    apply world_free_bind; [apply world_free_lift | intros names].
    apply world_free_bind; [| intros [items assigned'']; apply world_free_ret].
    apply world_free_for_each. intros n [items assigned'']. unfold item_step.
    apply world_free_bind; [apply world_free_lift | intros proj_data].
    destruct (truthy proj_data); [| apply world_free_ret].
    apply world_free_bind; [apply world_free_build_item |].
    intros it. apply world_free_ret. }
  intros [cats assigned]. apply world_free_bind.
  { apply world_free_for_each. intros [k p] items. unfold unassigned_step.
    destruct (kmem k assigned); [apply world_free_ret |].
    apply world_free_bind; [apply world_free_build_item |].
    intros it. apply world_free_ret. }
  intros items. apply world_free_ret.
Qed.

Lemma world_free_dynamic (projects : list value) :
  world_free (build_landscape_from_dynamic projects None).
Proof.
  unfold build_landscape_from_dynamic.
  apply world_free_bind; [apply world_free_ret | intros _].
  apply world_free_bind; [| intros categories; apply world_free_ret].
  apply world_free_for_each. intros p categories. unfold dynamic_step.
  apply world_free_bind; [apply world_free_lift | intros cat_obj].
  apply world_free_bind; [apply world_free_lift | intros [c s]].
  apply world_free_bind; [apply world_free_build_item |].
  intros it. apply world_free_ret.
Qed.

(** X7.  Without a logo directory neither builder touches the world: no
    request is sent and no file written, and the outcome, document or
    exception, is the same in every state of the world, so that building
    twice from the same input gives the same document. *)
Theorem no_logo_dir_no_effect :
  forall projects plan,
    world_free (build_landscape_from_static projects plan None)
    /\ world_free (build_landscape_from_dynamic projects None).
Proof.
  intros projects plan. split;
    [apply world_free_static | apply world_free_dynamic].
Qed.

(** ** How the builders fail *)

Lemma for_each_app {X S : Type} (body : X -> S -> M S) (xs ys : list X)
  (s : S) w :
  for_each body (xs ++ ys) s w
  = bind (for_each body xs s) (for_each body ys) w.
Proof.
  revert s w. induction xs as [| x rest IH]; intros s w; simpl.
  - reflexivity.
  - unfold bind. destruct (body x s w) as [[s1 | e] w1]; [| reflexivity].
    rewrite IH. reflexivity.
Qed.

Lemma bind_always_raises {A B : Type} (m : M A) (k : A -> M B) w :
  (forall a w0, exists e w', k a w0 = (Raise e, w')) ->
  exists e w', bind m k w = (Raise e, w').
Proof.
  intros Hk. unfold bind. destruct (m w) as [[a | e] w1]; [apply Hk | eauto].
Qed.

Lemma forallb_false_split {A : Type} (f : A -> bool) (l : list A) :
  forallb f l = false ->
  exists l1 x l2, l = l1 ++ x :: l2 /\ forallb f l1 = true /\ f x = false.
Proof.
  induction l as [| y rest IH]; simpl; intros H; [discriminate H |].
  destruct (f y) eqn:Hy.
  - destruct (IH H) as (l1 & x & l2 & -> & H1 & Hx).
    exists (y :: l1), x, l2. simpl. rewrite Hy. auto.
  - exists [], y, rest. auto.
Qed.

Lemma index_loop_accepts (projects : list value) (d : table) w :
  forallb indexable projects = true ->
  exists tbl, for_each index_step projects d w = (Ok tbl, w).
Proof.
  revert d. induction projects as [| p rest IH]; simpl; intros d H.
  - exists d. reflexivity.
  - apply andb_true_iff in H as [Hp Hrest].
    destruct p as [| | | | | fields]; try discriminate Hp.
    destruct (IH (kinsert (name_of (VDict fields)) (VDict fields) d) Hrest)
      as (tbl & E).
    exists tbl. erewrite bind_step; [exact E |].
    unfold index_step, indexable, name_of in *. simpl in *.
    unfold bind, lift. rewrite Hp. reflexivity.
Qed.

Lemma index_step_rejects (p : value) (d : table) w :
  indexable p = false -> index_step p d w = (Raise (index_error p), w).
Proof.
  unfold index_step. destruct p; try reflexivity.
  unfold indexable, name_of. simpl. unfold bind, lift. intros ->. reflexivity.
Qed.

(** X8.  The static builder rejects a project list at its first member
    that is not a dict (AttributeError) or whose name is a list or a dict
    (TypeError): the exception is raised while the lookup is built, before
    the logo directory is asked for and before any request, so the world is
    as it was. *)
Theorem static_rejects_project :
  forall earlier p later plan logo_dir w,
    forallb indexable earlier = true ->
    indexable p = false ->
    build_landscape_from_static (earlier ++ p :: later) plan logo_dir w
    = (Raise (index_error p), w).
Proof.
  intros earlier p later plan logo_dir w Hearlier Hp.
  unfold build_landscape_from_static. apply bind_raise.
  rewrite for_each_app.
  destruct (index_loop_accepts earlier [] w Hearlier) as (tbl & E).
  erewrite bind_step by exact E. simpl. apply bind_raise.
  apply index_step_rejects. exact Hp.
Qed.

Lemma static_rejects_project_witness :
  build_landscape_from_static [proj [("name", VStr "A")]; ex_bad_name]
    ex_static_plan (Some "logos") ex_serving_world
  = (Raise TypeError, ex_serving_world).
Proof.
  apply (static_rejects_project [proj [("name", VStr "A")]] ex_bad_name []
           ex_static_plan (Some "logos") ex_serving_world); reflexivity.
Defined.

(** X9.  When the logo directory cannot be created both builders raise
    OSError at once: the dynamic builder before it looks at any project,
    the static builder right after the lookup is built; no request is sent
    and nothing is written. *)
Theorem no_directory_no_run :
  forall projects plan dir w,
    mkdir_ok w dir = false ->
    build_landscape_from_dynamic projects (Some dir) w = (Raise OSError, w)
    /\ (forallb indexable projects = true ->
        build_landscape_from_static projects plan (Some dir) w
        = (Raise OSError, w)).
Proof.
  intros projects plan dir w Hdir.
  assert (Hmk : ensure_dir (Some dir) w = (Raise OSError, w)).
  { simpl. unfold mkdir. rewrite Hdir. reflexivity. }
  split.
  - unfold build_landscape_from_dynamic. apply bind_raise. exact Hmk.
  - intros Hps. unfold build_landscape_from_static.
    destruct (index_loop_accepts projects [] w Hps) as (tbl & E).
    erewrite bind_step by exact E. apply bind_raise. exact Hmk.
Qed.

Lemma no_directory_no_run_witness :
  build_landscape_from_dynamic [ex_logo_project] (Some "logos")
    ex_closed_world = (Raise OSError, ex_closed_world)
  /\ build_landscape_from_static [ex_logo_project] [] (Some "logos")
       ex_closed_world = (Raise OSError, ex_closed_world).
Proof.
  destruct (no_directory_no_run [ex_logo_project] [] "logos" ex_closed_world
              eq_refl) as [Hdyn Hstat].
  split; [exact Hdyn | apply Hstat; reflexivity].
Defined.

Section MalformedPlan.

Variable logo_dir : option string.
Variable tbl : table.

Lemma item_step_unhashable (n : value) (acc : list item * list value) w :
  hashable n = false ->
  exists e w', item_step logo_dir tbl n acc w = (Raise e, w').
Proof.
  intros Hn. destruct acc as [items assigned]. unfold item_step, table_get.
  rewrite Hn. eexists. eexists. reflexivity.
Qed.

Lemma sub_step_malformed (sub : value) (acc : list subcategory * list value)
  w :
  wf_sub sub = false ->
  exists e w', sub_step logo_dir tbl sub acc w = (Raise e, w').
Proof.
  intros Hsub. destruct acc as [subs assigned]. unfold sub_step.
  destruct sub as [| | | | | d]; try (eexists; eexists; reflexivity).
  unfold wf_sub in Hsub. cbn [rbind py_get] in Hsub.
  erewrite bind_step by reflexivity.
  erewrite bind_step by reflexivity.
  destruct (py_iter (match assoc "items" d with
                     | Some v => v | None => VList [] end))
    as [refs | e]; [| eexists; eexists; reflexivity].
  erewrite bind_step by reflexivity.
  apply forallb_false_split in Hsub as (l1 & n & l2 & -> & _ & Hn).
  destruct (for_each_raises (item_step logo_dir tbl) n
              (fun s w0 => item_step_unhashable n s w0 Hn)
              l1 l2 ([], assigned) w) as (e & w' & E).
  exists e, w'. apply bind_raise. exact E.
Qed.

Lemma cat_step_malformed (cat : value) (acc : list category * list value) w :
  wf_cat cat = false ->
  exists e w', cat_step logo_dir tbl cat acc w = (Raise e, w').
Proof.
  intros Hcat. destruct acc as [cats assigned]. unfold cat_step.
  destruct cat as [| | | | | d]; try (eexists; eexists; reflexivity).
  unfold wf_cat in Hcat. cbn [rbind py_get] in Hcat.
  erewrite bind_step by reflexivity.
  erewrite bind_step by reflexivity.
  destruct (py_iter (match assoc "subcategories" d with
                     | Some v => v | None => VList [] end))
    as [subs | e]; [| eexists; eexists; reflexivity].
  erewrite bind_step by reflexivity.
  apply forallb_false_split in Hcat as (l1 & sub & l2 & -> & _ & Hsub).
  destruct (for_each_raises (sub_step logo_dir tbl) sub
              (fun s w0 => sub_step_malformed sub s w0 Hsub)
              l1 l2 ([], assigned) w) as (e & w' & E).
  exists e, w'. apply bind_raise. exact E.
Qed.

End MalformedPlan.

(** X10.  A plan that is not well formed is never accepted, whatever the
    projects are: as soon as one category is not a dict, binds
    subcategories to something that cannot be iterated (a null, say), holds
    a subcategory that is not a dict or whose items cannot be iterated, or
    lists a reference that cannot be hashed, the static builder raises. *)
Theorem static_rejects_plan :
  forall projects plan logo_dir w,
    forallb wf_cat plan = false ->
    exists e w',
      build_landscape_from_static projects plan logo_dir w = (Raise e, w').
Proof.
  intros projects plan logo_dir w Hplan.
  apply forallb_false_split in Hplan as (l1 & cat & l2 & -> & _ & Hcat).
  unfold build_landscape_from_static.
  apply bind_always_raises. intros tbl w0.
  apply bind_always_raises. intros _ w1.
  destruct (for_each_raises (cat_step logo_dir tbl) cat
              (fun s w2 => cat_step_malformed logo_dir tbl cat s w2 Hcat)
              l1 l2 ([], []) w1) as (e & w' & E).
  exists e, w'. apply bind_raise. exact E.
Qed.

Lemma static_rejects_plan_witness :
  build_landscape_from_static ex_static_projects ex_null_subs_plan None
    quiet_world = (Raise TypeError, quiet_world)
  /\ exists e w',
      build_landscape_from_static ex_static_projects ex_null_subs_plan None
        quiet_world = (Raise e, w').
Proof.
  split; [reflexivity |].
  apply (static_rejects_plan ex_static_projects ex_null_subs_plan None
           quiet_world).
  reflexivity.
Defined.

(** ** When the dynamic builder returns *)

Lemma for_each_ok_each {X S : Type} (body : X -> S -> M S) (xs : list X)
  (s s' : S) w w' :
  for_each body xs s w = (Ok s', w') ->
  Forall (fun x => exists s0 w0 s1 w1, body x s0 w0 = (Ok s1, w1)) xs.
Proof.
  revert s w. induction xs as [| x rest IH]; simpl; intros s w H.
  - constructor.
  - peel H. constructor; [eauto 6 | eapply IH; exact H].
Qed.

Lemma dynamic_step_ok_wf (logo_dir : option string) (p : value)
  (categories categories' : list (string * open_category)) w w' :
  dynamic_step logo_dir p categories w = (Ok categories', w') ->
  wf_dynamic p = true.
Proof.
  unfold dynamic_step. intros H. peel H. peel Hm. peel H. peel Hm0.
  destruct a0 as [c s]. peel H.
  apply build_item_inv in Hm1 as (fields & _ & _ & Hf & _).
  unfold wf_dynamic. rewrite Hf, Hm.
  destruct a; try discriminate Hm0. reflexivity.
Qed.

Lemma dynamic_step_total (logo_dir : option string) (p : value)
  (categories : list (string * open_category)) w :
  wf_dynamic p = true ->
  exists categories' w',
    dynamic_step logo_dir p categories w = (Ok categories', w').
Proof.
  unfold wf_dynamic, dynamic_step. intros H.
  destruct (item_fields p) as [fields |] eqn:Hf; [| discriminate H].
  destruct (py_get p "category" (VStr "Unknown")) as [cat_obj |];
    [| discriminate H].
  destruct cat_obj as [| | | cat_str | |]; try discriminate H.
  erewrite bind_step by reflexivity.
  erewrite bind_step by reflexivity.
  destruct (labels cat_str) as [c s].
  destruct (build_item_of_fields logo_dir p fields w Hf) as (it & w' & E).
  erewrite bind_step by exact E. eexists. eexists. reflexivity.
Qed.

(** X11.  The dynamic builder returns a document exactly when the logo
    directory, if one is asked for, can be created and every project is a
    dict whose category is absent or a string and whose github_repos is
    absent, false in the Python sense, or a list that starts with a dict;
    otherwise it raises. *)
Theorem dynamic_returns_iff :
  forall projects logo_dir w,
    (exists out w',
        build_landscape_from_dynamic projects logo_dir w = (Ok out, w'))
    <-> dir_ready logo_dir w = true /\ forallb wf_dynamic projects = true.
Proof.
  intros projects logo_dir w. split.
  - intros (out & w' & H). unfold build_landscape_from_dynamic in H.
    peel H. peel H. split.
    + destruct logo_dir as [dir |]; [| reflexivity].
      simpl in *. unfold mkdir in Hm. destruct (mkdir_ok w dir);
        [reflexivity | discriminate Hm].
    + apply for_each_ok_each in Hm0. apply forallb_forall.
      rewrite Forall_forall in Hm0. intros p Hp.
      destruct (Hm0 p Hp) as (s0 & wa & s1 & wb & E).
      eapply dynamic_step_ok_wf. exact E.
  - intros [Hdir Hps]. unfold build_landscape_from_dynamic.
    erewrite bind_step by (apply ensure_dir_ready; exact Hdir).
    destruct (for_each_total (dynamic_step logo_dir)
                (fun p => wf_dynamic p = true) (fun _ => True)
                (fun p s w0 Hp _ =>
                   match dynamic_step_total logo_dir p s w0 Hp with
                   | ex_intro _ s' (ex_intro _ w' E) =>
                       ex_intro _ s' (ex_intro _ w' (conj E I))
                   end)
                projects [] w)
      as (categories & w' & E & _).
    + apply Forall_forall. apply forallb_forall. exact Hps.
    + exact I.
    + erewrite bind_step by exact E. eexists. eexists. reflexivity.
Qed.

(** ** Groups of the dynamic builder *)

Lemma first_seen_in (l : list string) (x : string) :
  In x (first_seen String.eqb l) <-> In x l.
Proof.
  revert x. induction l as [| y rest IH] using rev_ind; intros x.
  - simpl. tauto.
  - rewrite first_seen_snoc, in_app_iff.
    destruct (existsb (String.eqb y) (first_seen String.eqb rest)) eqn:E.
    + apply existsb_eqb_in in E. apply IH in E. rewrite IH. simpl.
      split; [tauto |]. intros [H | [<- | []]]; assumption.
    + rewrite in_app_iff, IH. tauto.
Qed.

Lemma NoDup_map_VStr (l : list string) : NoDup l -> NoDup (map VStr l).
Proof.
  induction 1 as [| x l Hx _ IH]; simpl; constructor; [| exact IH].
  intros Hin. apply in_map_iff in Hin as (y & E & Hy).
  inversion E; subst y. exact (Hx Hy).
Qed.

Lemma filter_nonempty {A : Type} (f : A -> bool) (l : list A) (x : A) :
  In x l -> f x = true -> filter f l <> [].
Proof.
  intros Hin Hx Hnil.
  assert (H : In x (filter f l)) by (apply filter_In; auto).
  rewrite Hnil in H. destruct H.
Qed.

(** X12.  A document of the dynamic builder has no empty category and no
    empty subcategory, and no two categories, and within a category no two
    subcategories, bear the same name. *)
Theorem dynamic_groups :
  forall projects logo_dir out w w',
    build_landscape_from_dynamic projects logo_dir w = (Ok out, w') ->
    well_grouped out.
Proof.
  intros projects logo_dir out w w' H.
  apply dynamic_run in H as (categories & w1 & Hloop & ->).
  apply grouped_loop in Hloop. apply grouped_shape in Hloop.
  destruct Hloop as [Hnames Hcats]. split.
  - rewrite Hnames. apply NoDup_map_VStr. apply first_seen_nodup.
  - assert (Hmem : forall c, In c (map (fun kv => close_category (snd kv))
                                       categories) ->
                             exists cn, cat_name c = VStr cn
                                        /\ In cn (map cat_label projects)).
    { intros c Hc. apply (in_map cat_name) in Hc. rewrite Hnames in Hc.
      apply in_map_iff in Hc as (cn & E & Hcn).
      rewrite first_seen_in in Hcn. eauto. }
    rewrite Forall_forall in *. intros c Hc.
    destruct (Hcats c Hc) as (cn & Hcn & Hsubnames & Hsubs).
    assert (Hlabels : forall sn,
               In sn (map sub_label (filter (in_cat cn) projects)) ->
               filter (in_sub cn sn) projects <> []).
    { intros sn Hsn. apply in_map_iff in Hsn as (p & <- & Hp).
      apply filter_In in Hp as [Hp Hpc].
      apply (filter_nonempty _ _ p Hp). unfold in_sub.
      rewrite Hpc. apply String.eqb_refl. }
    split; [| split].
    + destruct (Hmem c Hc) as (cn' & Hcn' & Hin).
      rewrite Hcn in Hcn'. inversion Hcn'; subst cn'.
      apply in_map_iff in Hin as (p & Hp & Hpin).
      intros Hnil. rewrite Hnil in Hsubnames. simpl in Hsubnames.
      symmetry in Hsubnames. apply map_eq_nil in Hsubnames.
      assert (Hsub : In (sub_label p)
                        (first_seen String.eqb
                           (map sub_label (filter (in_cat cn) projects)))).
      { rewrite first_seen_in. apply in_map. apply filter_In.
        split; [exact Hpin |]. unfold in_cat. rewrite Hp.
        apply String.eqb_refl. }
      rewrite Hsubnames in Hsub. destruct Hsub.
    + rewrite Hsubnames. apply NoDup_map_VStr. apply first_seen_nodup.
    + rewrite Forall_forall in *. intros s Hs.
      destruct (Hsubs s Hs) as (sn & Hsn & Hitems).
      assert (Hin : In sn (map sub_label (filter (in_cat cn) projects))).
      { apply (in_map sub_name) in Hs.
        rewrite Hsubnames, Hsn in Hs.
        apply in_map_iff in Hs as (sn' & E & Hsn'). inversion E; subst sn'.
        rewrite first_seen_in in Hsn'. exact Hsn'. }
      intros Hnil. rewrite Hnil in Hitems. inversion Hitems as [E |].
      symmetry in E. exact (Hlabels sn Hin E).
Qed.

Lemma dynamic_groups_witness : well_grouped ex_unsorted_out.
Proof.
  apply (dynamic_groups ex_unsorted None ex_unsorted_out quiet_world
           quiet_world).
  reflexivity.
Defined.

(** ** White space around the labels *)

Lemma lstrip_head (s : string) : head_space (lstrip s) = false.
Proof.
  induction s as [| c rest IH]; simpl; [reflexivity |].
  destruct (is_space c) eqn:E; [exact IH | simpl; exact E].
Qed.

Lemma rstrip_last (s : string) : last_space (rstrip s) = false.
Proof.
  induction s as [| c rest IH]; simpl; [reflexivity |].
  destruct (rstrip rest) as [| a r] eqn:E.
  - destruct (is_space c) eqn:Ec; simpl; [reflexivity | exact Ec].
  - exact IH.
Qed.

Lemma rstrip_head (s : string) :
  head_space s = false -> head_space (rstrip s) = false.
Proof.
  destruct s as [| c rest]; simpl; [reflexivity |]. intros Hc.
  destruct (rstrip rest); [rewrite Hc |]; simpl; exact Hc.
Qed.

Lemma strip_trimmed (s : string) : trimmed (strip s).
Proof.
  unfold strip. split; [apply rstrip_head; apply lstrip_head |
                        apply rstrip_last].
Qed.

Lemma labels_trimmed (cat_str : string) :
  trimmed (fst (labels cat_str)) /\ trimmed (snd (labels cat_str)).
Proof.
  unfold labels.
  destruct (split1 "/" cat_str) as [| a [| b [| c rest]]]; simpl;
    repeat split; try apply strip_trimmed.
Qed.

Lemma project_labels_trimmed (p : value) :
  trimmed (cat_label p) /\ trimmed (sub_label p).
Proof.
  unfold cat_label, sub_label, project_labels.
  destruct (py_get p "category" (VStr "Unknown")) as [v |]; simpl;
    [| repeat split].
  destruct v; simpl; try solve [repeat split]. apply labels_trimmed.
Qed.

(** X13.  The category and subcategory names of a document of the dynamic
    builder are strings with no white space at either end: the white space
    around the two parts of a category field never reaches the document. *)
Theorem dynamic_names_trimmed :
  forall projects logo_dir out w w',
    build_landscape_from_dynamic projects logo_dir w = (Ok out, w') ->
    trimmed_names out.
Proof.
  intros projects logo_dir out w w' H.
  apply dynamic_run in H as (categories & w1 & Hloop & ->).
  apply grouped_loop in Hloop. apply grouped_shape in Hloop.
  destruct Hloop as [Hnames Hcats].
  unfold trimmed_names. rewrite Forall_forall in *. intros c Hc.
  destruct (Hcats c Hc) as (cn & Hcn & Hsubnames & Hsubs). split.
  - exists cn. split; [exact Hcn |].
    apply (in_map cat_name) in Hc. rewrite Hnames, Hcn in Hc.
    apply in_map_iff in Hc as (cn' & E & Hin). inversion E; subst cn'.
    rewrite first_seen_in in Hin. apply in_map_iff in Hin as (p & <- & _).
    apply project_labels_trimmed.
  - rewrite Forall_forall in *. intros s Hs.
    destruct (Hsubs s Hs) as (sn & Hsn & _).
    exists sn. split; [exact Hsn |].
    apply (in_map sub_name) in Hs. rewrite Hsubnames, Hsn in Hs.
    apply in_map_iff in Hs as (sn' & E & Hin). inversion E; subst sn'.
    rewrite first_seen_in in Hin. apply in_map_iff in Hin as (p & <- & _).
    apply project_labels_trimmed.
Qed.

Lemma dynamic_names_trimmed_witness :
  build_landscape_from_dynamic ex_spaced None quiet_world
  = (Ok ex_spaced_out, quiet_world)
  /\ trimmed_names ex_spaced_out.
Proof.
  split; [reflexivity |].
  apply (dynamic_names_trimmed ex_spaced None ex_spaced_out quiet_world
           quiet_world).
  reflexivity.
Defined.

(** ** The loaders and [main] *)

Lemma static_on_inv (projects static_categories : value)
  (logo_dir : option string) (out : list category) w w' :
  static_on projects static_categories logo_dir w = (Ok out, w') ->
  exists ps plan,
    py_iter projects = Ok ps
    /\ py_iter static_categories = Ok plan
    /\ build_landscape_from_static ps plan logo_dir w = (Ok out, w').
Proof.
  unfold static_on. intros H. peel H. peel Hm. peel H. peel H. peel H.
  peel Hm2. exists a, a2. split; [exact Hm |]. split; [exact Hm2 |].
  unfold build_landscape_from_static.
  erewrite bind_step by exact Hm0.
  erewrite bind_step by exact Hm1.
  exact H.
Qed.

Lemma dynamic_on_inv (projects : value) (logo_dir : option string)
  (out : list category) w w' :
  dynamic_on projects logo_dir w = (Ok out, w') ->
  exists ps,
    py_iter projects = Ok ps
    /\ build_landscape_from_dynamic ps logo_dir w = (Ok out, w').
Proof.
  unfold dynamic_on. intros H. peel H. peel H. peel Hm0.
  exists a0. split; [exact Hm0 |].
  unfold build_landscape_from_dynamic.
  erewrite bind_step by exact Hm.
  exact H.
Qed.

Lemma write_file_inv (path : string) (data : list Byte.byte) (u : unit)
  w w' :
  write_file path data w = (Ok u, w') ->
  files w' = (path, data) :: files w.
Proof.
  unfold write_file. destruct (writable w path); intros H; inversion H.
  reflexivity.
Qed.

(** X18.  Without an input file, or with an empty input path, [main]
    fetches the projects from the API, and a failure of that request is
    fatal, unlike the failure of a logo download: on a transport failure or
    a 4xx/5xx status [main] raises and writes no file. *)
Theorem fetch_failure_is_fatal :
  forall env args outcome rest w,
    input_given args = None ->
    pending w = outcome :: rest ->
    (outcome API_URL = None
     \/ exists r, outcome API_URL = Some r
                  /\ (400 <= status_code r < 600)%Z) ->
    exists e,
      main env args w
      = (Raise e, mkWorld (mkdir_ok w) rest (writable w) (files w)).
Proof.
  intros env args outcome rest w Hin Hpending Hfail.
  unfold main. rewrite Hin. unfold fetch_projects_from_api.
  destruct Hfail as [Hnone | (r & Hsome & Hstatus)].
  - exists ConnectionError. apply bind_raise. apply bind_raise.
    unfold requests_get. rewrite Hpending, Hnone. reflexivity.
  - exists HTTPError. apply bind_raise.
    erewrite bind_step
      by (unfold requests_get; rewrite Hpending, Hsome; reflexivity).
    apply bind_raise. unfold lift, raise_for_status.
    replace ((400 <=? status_code r) && (status_code r <? 600))%Z with true;
      [reflexivity |].
    symmetry. apply andb_true_iff. split;
      [apply Z.leb_le | apply Z.ltb_lt]; lia.
Qed.

Lemma fetch_failure_is_fatal_witness :
  exists e,
    main (ex_outside VNone None) (default_args (Some EmptyString))
         (mkWorld (fun _ => true) [fun _ => Some (mkResponse 503 [])]
                  (fun _ => true) [])
    = (Raise e, quiet_world).
Proof.
  apply (fetch_failure_is_fatal (ex_outside VNone None)
           (default_args (Some EmptyString))
           (fun _ => Some (mkResponse 503 [])) []
           (mkWorld (fun _ => true) [fun _ => Some (mkResponse 503 [])]
                    (fun _ => true) []));
    try reflexivity.
  right. exists (mkResponse 503 []). split; [reflexivity | simpl; lia].
Defined.

(** ** Where files are written *)

Section Confined.

Variable P : string -> Prop.










End Confined.














(** * The static document, stated without the code's own bucket *)


Lemma filter_by_name (g : value -> bool) (projects : list value) :
  filter (fun e => g (fst e)) (by_name projects)
  = by_name (filter (fun p => g (name_of p)) projects).
Proof.
  unfold by_name. induction projects as [| p rest IH]; simpl; [reflexivity |].
  destruct (g (name_of p)); simpl; rewrite IH; reflexivity.
Qed.

Lemma Forall2_by_name (logo_dir : option string) (projects : list value)
  (items : list item) :
  Forall2 (fun e it => built_from logo_dir (snd e) it) (by_name projects)
          items ->
  Forall2 (built_from logo_dir) projects items.
Proof.
  unfold by_name. revert items.
  induction projects as [| p rest IH]; intros items H; inversion H; subst;
    constructor; auto.
Qed.

Lemma with_unmapped_eq (planned : list category) (rest : list item) :
  planned ++ match rest with
             | [] => []
             | _ :: _ => [unmapped rest]
             end
  = with_unmapped planned rest.
Proof. reflexivity. Qed.

(** The static document when the names are pairwise distinct. *)
Lemma static_run_distinct (projects plan : list value)
  (logo_dir : option string) (out : list category) w w' :
  distinct_keys (map name_of projects) = true ->
  build_landscape_from_static projects plan logo_dir w = (Ok out, w') ->
  exists planned rest,
    Forall2 (cat_matches logo_dir (by_name projects)) plan planned
    /\ Forall2 (built_from logo_dir)
               (filter (fun p => negb (kmem (name_of p)
                                            (assigned_refs (by_name projects)
                                                           plan)))
                       projects)
               rest
    /\ out = with_unmapped planned rest.
Proof.
  intros Hnames H.
  apply static_run in H
      as (tbl & planned & rest & (w1 & Hloop) & _ & Hcats & Hrest & ->).
  pose proof (index_loop_distinct _ _ _ _ Hloop Hnames) as Htbl.
  fold (by_name projects) in Htbl. subst tbl.
  exists planned, rest. split; [exact Hcats |]. split; [| reflexivity].
  unfold leftover in Hrest.
  rewrite (filter_by_name
             (fun k => negb (kmem k (assigned_refs (by_name projects) plan))))
    in Hrest.
  apply Forall2_by_name. exact Hrest.
Qed.




(** ** The static document told by names *)

Lemma found_by_last (tbl : table) (projects : list value) (n : value) :
  indexes tbl projects -> found tbl n = found_last projects n.
Proof.
  intros (_ & Hfind & _). unfold found, found_last, table_get.
  rewrite Hfind. destruct (hashable n); [| reflexivity]. simpl.
  destruct (last_named n projects); reflexivity.
Qed.

Lemma from_ref_by_last (logo_dir : option string) (tbl : table)
  (projects : list value) (n : value) (it : item) :
  indexes tbl projects ->
  from_ref logo_dir tbl n it -> from_last logo_dir projects n it.
Proof.
  intros (_ & Hfind & _) (p & Hp & Hit). rewrite Hfind in Hp.
  exists p. split; assumption.
Qed.

Lemma cat_matches_by_last (logo_dir : option string) (tbl : table)
  (projects : list value) (cat : value) (c : category) :
  indexes tbl projects ->
  cat_matches logo_dir tbl cat c -> cat_by_last logo_dir projects cat c.
Proof.
  intros Hidx [Hname Hsubs]. split; [exact Hname |].
  eapply Forall2_impl; [| exact Hsubs].
  intros sub s [Hsname Hitems]. split; [exact Hsname |].
  rewrite (filter_ext (found_last projects) (found tbl))
    by (intros n; symmetry; apply found_by_last; exact Hidx).
  eapply Forall2_impl; [| exact Hitems].
  intros n it. apply from_ref_by_last. exact Hidx.
Qed.

Lemma keys_filter (g : value -> bool) (tbl : table) :
  map fst (filter (fun e => g (fst e)) tbl) = filter g (map fst tbl).
Proof.
  induction tbl as [| [k p] rest IH]; simpl; [reflexivity |].
  destruct (g k); simpl; rewrite IH; reflexivity.
Qed.

Lemma leftover_by_last (logo_dir : option string) (tbl : table)
  (projects plan : list value) (rest : list item) :
  indexes tbl projects ->
  Forall2 (fun e it => built_from logo_dir (snd e) it) (leftover tbl plan)
          rest ->
  Forall2 (from_last logo_dir projects) (unassigned_names projects plan) rest.
Proof.
  intros Hidx Hrest.
  assert (Hnames : unassigned_names projects plan
                   = map fst (leftover tbl plan)).
  { unfold unassigned_names, leftover, assigned_refs.
    rewrite (keys_filter
               (fun k => negb (kmem k (filter (found tbl) (plan_refs plan))))).
    pose proof Hidx as (Hkeys & _). rewrite Hkeys.
    rewrite (filter_ext (found_last projects) (found tbl))
      by (intros n; symmetry; apply found_by_last; exact Hidx).
    reflexivity. }
  rewrite Hnames.
  assert (Hentries : Forall (fun e => last_named (fst e) projects
                                      = Some (snd e))
                            (leftover tbl plan)).
  { apply Forall_forall. intros [k p] Hin.
    unfold leftover in Hin. apply filter_In in Hin as [Hin _].
    destruct Hidx as (_ & Hfind & Hdist & Hhash).
    rewrite <- Hfind. apply kfind_entry; assumption. }
  clear Hnames.
  induction Hrest as [| e it l l' Hit _ IH]; simpl; [constructor |].
  inversion Hentries; subst. constructor; [| apply IH; assumption].
  exists (snd e). split; assumption.
Qed.

Lemma static_run_by_last (projects plan : list value)
  (logo_dir : option string) (out : list category) w w' :
  build_landscape_from_static projects plan logo_dir w = (Ok out, w') ->
  by_last_name logo_dir projects plan out.
Proof.
  intros H.
  apply static_run in H
      as (tbl & planned & rest & _ & Hidx & Hcats & Hrest & ->).
  exists planned, rest. split; [| split; [| reflexivity]].
  - eapply Forall2_impl; [| exact Hcats].
    intros cat c. apply cat_matches_by_last. exact Hidx.
  - eapply leftover_by_last; eassumption.
Qed.

Lemma wf_project_indexable (projects : list value) :
  forallb wf_project projects = true -> forallb indexable projects = true.
Proof.
  intros H. apply forallb_forall. intros p Hp.
  rewrite forallb_forall in H. specialize (H p Hp).
  apply wf_project_dict in H as (d & fields & -> & _ & Hh). exact Hh.
Qed.

(** C8.  Projects that share a name raise no error, and the later one
    wins.  On well-formed projects and plan, whether names repeat or not:
    the dict comprehension returns a lookup in which a name that several
    projects bear is bound to the last of them; the static builder
    returns; and its document holds, under the plan, one item for each
    reference that names a project and, under Unmapped/Misc, one item for
    each name left over, every one of these items built from the last
    project that bears the name. *)
Theorem later_project_wins :
  forall projects plan logo_dir w,
    forallb wf_project projects = true ->
    forallb wf_cat plan = true ->
    dir_ready logo_dir w = true ->
    (exists tbl,
        for_each index_step projects [] w = (Ok tbl, w)
        /\ forall earlier p later n,
            projects = earlier ++ p :: later ->
            key_eqb (name_of p) n = true ->
            (forall q, In q later -> key_eqb (name_of q) n = false) ->
            kfind n tbl = Some p)
    /\ (exists out w',
           build_landscape_from_static projects plan logo_dir w
           = (Ok out, w'))
    /\ (forall out w',
           build_landscape_from_static projects plan logo_dir w
           = (Ok out, w') ->
           by_last_name logo_dir projects plan out).
Proof.
  intros projects plan logo_dir w Hps Hplan Hdir. split; [| split].
  - destruct (index_loop_accepts projects [] w (wf_project_indexable _ Hps))
      as (tbl & E).
    exists tbl. split; [exact E |].
    intros earlier p later n -> Hp Hlater.
    destruct (index_loop _ _ _ _ E) as (_ & Hfind & _).
    rewrite Hfind. apply last_named_later; assumption.
  - apply static_total; assumption.
  - intros out w' H. eapply static_run_by_last. exact H.
Qed.

Lemma later_project_wins_witness :
  (exists tbl,
      for_each index_step ex_twice [] quiet_world = (Ok tbl, quiet_world)
      /\ kfind (VStr "A") tbl
         = Some (proj [("name", VStr "A"); ("summary", VStr "new")]))
  /\ build_landscape_from_static ex_twice ex_static_plan None quiet_world
     = (Ok [ mkCat (VStr "Core") [mkSub (VStr "Runtime") [ex_new_item]];
             mkCat (VStr "Unmapped") [mkSub (VStr "Misc") [plain "B"]] ],
        quiet_world)
  /\ by_last_name None ex_twice ex_static_plan
       [ mkCat (VStr "Core") [mkSub (VStr "Runtime") [ex_new_item]];
         mkCat (VStr "Unmapped") [mkSub (VStr "Misc") [plain "B"]] ].
Proof.
  destruct (later_project_wins ex_twice ex_static_plan None quiet_world
              eq_refl eq_refl eq_refl)
    as ((tbl & Hloop & Hlater) & _ & Hshape).
  split; [| split].
  - exists tbl. split; [exact Hloop |].
    apply (Hlater [proj [("name", VStr "A"); ("summary", VStr "old")];
                   proj [("name", VStr "B")]]
                  (proj [("name", VStr "A"); ("summary", VStr "new")]) []);
      [reflexivity | reflexivity | intros q []].
  - reflexivity.
  - apply (Hshape _ quiet_world). reflexivity.
Defined.

(** ** The static builder without a plan *)

Lemma assigned_refs_no_plan (tbl : table) : assigned_refs tbl [] = [].
Proof. reflexivity. Qed.

Lemma static_no_plan_run (projects : list value) (logo_dir : option string)
  (out : list category) w w' :
  distinct_keys (map name_of projects) = true ->
  build_landscape_from_static projects [] logo_dir w = (Ok out, w') ->
  exists items,
    Forall2 (built_from logo_dir) projects items
    /\ out = with_unmapped [] items.
Proof.
  intros Hnames H.
  destruct (static_run_distinct _ _ _ _ _ _ Hnames H)
    as (planned & rest & Hcats & Hrest & ->).
  inversion Hcats; subst planned.
  exists rest. split; [| reflexivity].
  rewrite assigned_refs_no_plan in Hrest.
  change (filter (fun p : value => negb (kmem (name_of p) [])) projects)
    with (filter (fun _ : value => true) projects) in Hrest.
  rewrite filter_true in Hrest. exact Hrest.
Qed.

(** X14.  With an empty plan and pairwise distinct names the document of
    the static builder is the single category Unmapped with the single
    subcategory Misc, which holds one item for each project in load
    order; for an empty project list the document is empty and has no
    Unmapped category. *)
Theorem static_no_plan :
  forall projects logo_dir out w w',
    distinct_keys (map name_of projects) = true ->
    build_landscape_from_static projects [] logo_dir w = (Ok out, w') ->
    exists items,
      Forall2 (built_from logo_dir) projects items
      /\ out = match projects with
               | [] => []
               | _ :: _ =>
                   [mkCat (VStr "Unmapped") [mkSub (VStr "Misc") items]]
               end.
Proof.
  intros projects logo_dir out w w' Hnames H.
  destruct (static_no_plan_run _ _ _ _ _ Hnames H) as (items & Hitems & ->).
  exists items. split; [exact Hitems |].
  destruct Hitems; reflexivity.
Qed.

Lemma static_no_plan_witness :
  build_landscape_from_static ex_static_projects [] None quiet_world
  = (Ok [mkCat (VStr "Unmapped")
               [mkSub (VStr "Misc") [plain "A"; plain "B"]]],
     quiet_world)
  /\ exists items,
      Forall2 (built_from None) ex_static_projects items
      /\ [mkCat (VStr "Unmapped")
                [mkSub (VStr "Misc") [plain "A"; plain "B"]]]
         = [mkCat (VStr "Unmapped") [mkSub (VStr "Misc") items]].
Proof.
  split; [reflexivity |].
  apply (static_no_plan ex_static_projects None _ quiet_world quiet_world);
    reflexivity.
Defined.

(** ** What [main] writes *)

Lemma main_phases (env : outside) (args : arguments) :
  main env args
  = (projects <- load_projects env args ;;
     doc <- build_document env args projects ;;
     write_file (arg_output args) (yaml_dump env doc)).
Proof. reflexivity. Qed.

Lemma build_document_local (env : outside) (args : arguments)
  (projects : value) (doc : list category) w w' :
  build_document env args projects w = (Ok doc, w') ->
  Forall local_logo (all_items doc).
Proof.
  unfold build_document. intros H.
  destruct (path_exists env (arg_categories args)).
  - peel H. apply static_on_inv in H as (ps & plan & _ & _ & Hrun).
    apply static_items_from_last in Hrun.
    eapply Forall_impl; [| exact Hrun].
    intros it (n & p & _ & _ & Hit). eapply built_from_local. exact Hit.
  - apply dynamic_on_inv in H as (ps & _ & Hrun).
    apply dynamic_items_built in Hrun.
    eapply Forall_impl; [| exact Hrun].
    intros it (p & _ & Hit). eapply built_from_local. exact Hit.
Qed.

(** X15.  When [main] returns it has loaded the projects, built from them
    a document with the directory logos, by the static builder on the
    loaded plan when the plan file exists and by the dynamic builder
    otherwise, and as its last step written the printed form of that very
    document to the output file; the logo of every item of the document is
    the placeholder or the plain name of a file, never a remote URL. *)
Theorem main_writes_local_document :
  forall env args w w',
    main env args w = (Ok tt, w') ->
    exists projects w0 doc w1,
      load_projects env args w = (Ok projects, w0)
      /\ (if path_exists env (arg_categories args)
          then exists static_categories w2,
              load_static_categories env (arg_categories args) w0
              = (Ok static_categories, w2)
              /\ static_on projects static_categories (Some logos) w2
                 = (Ok doc, w1)
          else dynamic_on projects (Some logos) w0 = (Ok doc, w1))
      /\ write_file (arg_output args) (yaml_dump env doc) w1 = (Ok tt, w')
      /\ files w' = (arg_output args, yaml_dump env doc) :: files w1
      /\ Forall local_logo (all_items doc).
Proof.
  intros env args w w' H. rewrite main_phases in H.
  apply bind_ok in H as (projects & w0 & Hload & H).
  apply bind_ok in H as (doc & w1 & Hbuild & Hwrite).
  exists projects, w0, doc, w1. split; [exact Hload |].
  split; [| split; [exact Hwrite | split]].
  - unfold build_document in Hbuild.
    destruct (path_exists env (arg_categories args)); [| exact Hbuild].
    apply bind_ok in Hbuild as (cats & w2 & Hcats & Hrun). eauto.
  - eapply write_file_inv. exact Hwrite.
  - eapply build_document_local. exact Hbuild.
Qed.

Lemma main_writes_local_document_witness :
  main (ex_printing (VList [ex_logo_project]) None)
       (default_args (Some "projects.json")) ex_serving_world
  = (Ok tt, ex_printed_world)
  /\ exists doc w1,
      dynamic_on (VList [ex_logo_project]) (Some logos) ex_serving_world
      = (Ok doc, w1)
      /\ doc = [mkCat (VStr "Unknown") [mkSub (VStr "Misc") [ex_logo_item]]]
      /\ files ex_printed_world = ("data.yml", [Byte.x2d]) :: files w1
      /\ Forall local_logo (all_items doc).
Proof.
  split; [reflexivity |].
  destruct (main_writes_local_document
              (ex_printing (VList [ex_logo_project]) None)
              (default_args (Some "projects.json"))
              ex_serving_world ex_printed_world eq_refl)
    as (projects & w0 & doc & w1 & Hload & Hbuild & _ & Hfiles & Hlocal).
  inversion Hload; subst projects w0. simpl in Hbuild.
  exists doc, w1. split; [exact Hbuild |].
  assert (Hdoc : doc = [mkCat (VStr "Unknown")
                              [mkSub (VStr "Misc") [ex_logo_item]]]).
  { vm_compute in Hbuild. inversion Hbuild. reflexivity. }
  split; [exact Hdoc |]. split; [| exact Hlocal].
  rewrite Hfiles. rewrite Hdoc. reflexivity.
Defined.

(** ** The plan file *)

(** Loading the projects writes no file; from an input file it leaves the
    world as it was, and from the API it uses up one pending request. *)
Lemma load_projects_world (env : outside) (args : arguments)
  (r : result value) w w0 :
  load_projects env args w = (r, w0) ->
  files w0 = files w
  /\ (forall path, input_given args = Some path -> w0 = w)
  /\ (input_given args = None -> pending w0 = tl (pending w)).
Proof.
  unfold load_projects. destruct (input_given args) as [path |].
  - unfold load_projects_from_file, lift. intros H. inversion H.
    split; [reflexivity |]. split; [reflexivity |].
    intros Hnone. discriminate Hnone.
  - unfold fetch_projects_from_api, bind, requests_get, lift.
    intros H.
    assert (Hw : files w0 = files w /\ pending w0 = tl (pending w)).
    { destruct (pending w) as [| outcome rest] eqn:Ep.
      - inversion H; subst w0. rewrite Ep. split; reflexivity.
      - destruct (outcome API_URL) as [resp |].
        + destruct (raise_for_status resp); inversion H; split; reflexivity.
        + inversion H. split; reflexivity. }
    destruct Hw as [Hfiles Hpending].
    split; [exact Hfiles |]. split; [| intros _; exact Hpending].
    intros path Hsome. discriminate Hsome.
Qed.

Lemma plan_not_mapping_raises (env : outside) (path : string) w :
  (forall d, yaml_file env path <> Ok (VDict d)) ->
  exists e, load_static_categories env path w = (Raise e, w).
Proof.
  intros Hyaml. unfold load_static_categories.
  destruct (yaml_file env path) as [data | e] eqn:E.
  - destruct data as [| | | | | d]; try (eexists; reflexivity).
    exfalso. exact (Hyaml d eq_refl).
  - exists e. reflexivity.
Qed.

(** X16.  If the plan file exists but its content is not a mapping (an
    empty file, a list, a scalar, or a file that cannot be read or
    parsed), every run of [main] raises, and the world it leaves is the
    one that loading the projects left: no builder runs, static or
    dynamic, no logo is requested and no file is written.  When the
    projects come from an input file no request is sent at all; when they
    come from the API, the request to the API is the only one used up. *)
Theorem plan_file_must_be_mapping :
  forall env args w,
    path_exists env (arg_categories args) = true ->
    (forall d, yaml_file env (arg_categories args) <> Ok (VDict d)) ->
    exists e w0,
      main env args w = (Raise e, w0)
      /\ (exists r, load_projects env args w = (r, w0))
      /\ (forall projects doc w1,
             build_document env args projects w0 <> (Ok doc, w1))
      /\ files w0 = files w
      /\ (forall path, input_given args = Some path -> w0 = w)
      /\ (input_given args = None -> pending w0 = tl (pending w)).
Proof.
  intros env args w Hexists Hyaml.
  destruct (load_projects env args w) as [r w0] eqn:Hload.
  destruct (load_projects_world _ _ _ _ _ Hload) as (Hfiles & Hsame & Hused).
  destruct (plan_not_mapping_raises env (arg_categories args) w0 Hyaml)
    as (e' & Hplan).
  assert (Hbuild : forall projects,
             build_document env args projects w0 = (Raise e', w0)).
  { intros projects. unfold build_document. rewrite Hexists.
    apply bind_raise. exact Hplan. }
  destruct r as [projects | e].
  - exists e', w0. split.
    + rewrite main_phases. erewrite bind_step by exact Hload.
      apply bind_raise. apply Hbuild.
    + split; [eexists; reflexivity |].
      split; [| split; [exact Hfiles | split; assumption]].
      intros ps doc w1 H. rewrite Hbuild in H. discriminate H.
  - exists e, w0. split.
    + rewrite main_phases. apply bind_raise. exact Hload.
    + split; [eexists; reflexivity |].
      split; [| split; [exact Hfiles | split; assumption]].
      intros ps doc w1 H. rewrite Hbuild in H. discriminate H.
Qed.

Lemma plan_file_must_be_mapping_witness :
  main (ex_outside (VList [ex_logo_project]) (Some VNone))
       (default_args (Some "projects.json")) ex_serving_world
  = (Raise AttributeError, ex_serving_world)
  /\ exists e w0,
      main (ex_outside (VList [ex_logo_project]) (Some VNone))
           (default_args (Some "projects.json")) ex_serving_world
      = (Raise e, w0)
      /\ w0 = ex_serving_world.
Proof.
  split; [reflexivity |].
  destruct (plan_file_must_be_mapping
              (ex_outside (VList [ex_logo_project]) (Some VNone))
              (default_args (Some "projects.json")) ex_serving_world
              eq_refl
              (fun d H => eq_ind (Ok VNone)
                            (fun r => match r with
                                      | Ok VNone => True
                                      | _ => False
                                      end) I _ H))
    as (e & w0 & Hmain & _ & _ & _ & Hsame & _).
  exists e, w0. split; [exact Hmain |].
  exact (Hsame "projects.json" eq_refl).
Defined.

Lemma static_on_lists (ps plan : list value) (logo_dir : option string) w :
  static_on (VList ps) (VList plan) logo_dir w
  = build_landscape_from_static ps plan logo_dir w.
Proof.
  unfold static_on, build_landscape_from_static, bind, lift. simpl.
  destruct (for_each index_step ps [] w) as [[tbl | e] w1]; [| reflexivity].
  destruct (ensure_dir logo_dir w1) as [[u | e] w2]; reflexivity.
Qed.

(** X17.  When the projects were loaded as a list and the plan file
    exists and holds a mapping with no categories key, [main] runs the
    static builder on the empty plan and writes what it returns.  When
    moreover the names of the projects are pairwise distinct and [main]
    returns, the document it printed is the single category Unmapped with
    the single subcategory Misc, which holds one item for each project in
    load order (the empty document when there is no project). *)
Theorem plan_without_categories :
  forall env args ps d w w0,
    load_projects env args w = (Ok (VList ps), w0) ->
    path_exists env (arg_categories args) = true ->
    yaml_file env (arg_categories args) = Ok (VDict d) ->
    assoc "categories" d = None ->
    main env args w
    = (doc <- build_landscape_from_static ps [] (Some logos) ;;
       write_file (arg_output args) (yaml_dump env doc)) w0
    /\ (distinct_keys (map name_of ps) = true ->
        forall w', main env args w = (Ok tt, w') ->
          exists items w1,
            build_landscape_from_static ps [] (Some logos) w0
            = (Ok (with_unmapped [] items), w1)
            /\ Forall2 (built_from (Some logos)) ps items
            /\ write_file (arg_output args)
                 (yaml_dump env (with_unmapped [] items)) w1 = (Ok tt, w')
            /\ files w'
               = (arg_output args, yaml_dump env (with_unmapped [] items))
                   :: files w1).
Proof.
  intros env args ps d w w0 Hload Hexists Hyaml Hkey.
  assert (Hmain : main env args w
                  = (doc <- build_landscape_from_static ps [] (Some logos) ;;
                     write_file (arg_output args) (yaml_dump env doc)) w0).
  { rewrite main_phases. erewrite bind_step by exact Hload.
    unfold build_document. rewrite Hexists.
    unfold load_static_categories, bind at 1 2 3, lift.
    rewrite Hyaml. simpl. rewrite Hkey.
    rewrite static_on_lists. reflexivity. }
  split; [exact Hmain |].
  intros Hnames w' H. rewrite Hmain in H.
  apply bind_ok in H as (doc & w1 & Hrun & Hwrite).
  destruct (static_no_plan_run _ _ _ _ _ Hnames Hrun) as (items & Hitems & ->).
  exists items, w1. split; [exact Hrun |]. split; [exact Hitems |].
  split; [exact Hwrite |]. eapply write_file_inv. exact Hwrite.
Qed.

Lemma plan_without_categories_witness :
  main (ex_printing (VList [ex_logo_project]) (Some (VDict [])))
       (default_args (Some "projects.json")) ex_serving_world
  = (Ok tt, ex_printed_world)
  /\ exists items w1,
      items = [ex_logo_item]
      /\ build_landscape_from_static [ex_logo_project] [] (Some logos)
           ex_serving_world
         = (Ok [mkCat (VStr "Unmapped") [mkSub (VStr "Misc") items]], w1)
      /\ Forall2 (built_from (Some logos)) [ex_logo_project] items
      /\ files ex_printed_world = ("data.yml", [Byte.x2d]) :: files w1.
Proof.
  split; [reflexivity |].
  destruct (plan_without_categories
              (ex_printing (VList [ex_logo_project]) (Some (VDict [])))
              (default_args (Some "projects.json"))
              [ex_logo_project] [] ex_serving_world ex_serving_world
              eq_refl eq_refl eq_refl eq_refl)
    as (_ & Hshape).
  destruct (Hshape eq_refl ex_printed_world eq_refl)
    as (items & w1 & Hrun & Hitems & _ & Hfiles).
  assert (Hdoc : items = [ex_logo_item]).
  { vm_compute in Hrun. inversion Hitems as [| ? it ? its _ Hrest]; subst.
    inversion Hrest; subst. inversion Hrun. reflexivity. }
  exists items, w1. split; [exact Hdoc |].
  split; [| split; [exact Hitems |]].
  - rewrite Hrun. rewrite Hdoc. reflexivity.
  - rewrite Hfiles. rewrite Hdoc. reflexivity.
Defined.
